(** * The oplog entry primitive of orbit-db ([src/oplog/entry.js])

    A shallow embedding of [create], [verify], [isEntry], [isEqual],
    [decode] and [encode], and the properties of the entry pipeline.

    JavaScript values are a tree type; objects are finite maps from
    property names to values.  Everything the module imports or is handed
    by its caller (the clock, the block codec of multiformats, the CID
    printer, and caller-supplied functions such as the signer, the verifier
    and the encryption callbacks) is a collaborator: a program is a finite
    tree whose nodes are the collaborator calls, in the order the code
    awaits them, and whose leaves are a returned value or a thrown error. *)

From Stdlib Require Import ZArith.
From Stdlib.Strings Require Import Byte.
From stdpp Require Import base option list strings gmap fin_maps pretty.

Set Warnings "-register-all".

Local Open Scope Z_scope.
Local Open Scope string_scope.
Local Open Scope list_scope.

(** ** JavaScript values *)

Module Js.

(** The values that reach this module.  Numbers are the integer-valued
    ones (the version tag and clock times); [VBytes] is a [Uint8Array];
    [VFun] is a function, known only by a handle and run by the
    environment. *)
Inductive value : Type :=
| VUndefined
| VNull
| VBool (b : bool)
| VNum (n : Z)
| VStr (s : string)
| VBytes (b : list byte)
| VArr (l : list value)
| VObj (m : gmap string value)
| VFun (f : string).

(** [!!v]: everything is truthy but [undefined], [null], [false], [0]
    and the empty string. *)
Definition truthy (v : value) : bool :=
  match v with
  | VUndefined | VNull => false
  | VBool b => b
  | VNum n => negb (n =? 0)%Z
  | VStr s => negb (String.eqb s "")
  | VBytes _ | VArr _ | VObj _ | VFun _ => true
  end.

(** [v == null] *)
Definition nullish (v : value) : bool :=
  match v with
  | VUndefined | VNull => true
  | _ => false
  end.

(** [v !== undefined] *)
Definition defined (v : value) : bool :=
  match v with
  | VUndefined => false
  | _ => true
  end.

(** [Array.isArray(v)] *)
Definition isArray (v : value) : bool :=
  match v with
  | VArr _ => true
  | _ => false
  end.

(** [a || b] and [a && b]; the right operand is a total expression at
    every use, so evaluating it eagerly changes nothing. *)
Definition logical_or (a b : value) : value := if truthy a then a else b.
Definition logical_and (a b : value) : value := if truthy a then b else a.

(** [v.k] for the property names this module reads (none of them is a
    built-in property of a primitive, an array, a byte array or a
    function).  On [null] and [undefined] JavaScript throws instead: see
    [get] below; every use of [prop] is on a value known not to be
    nullish, or is guarded by a truthiness test as in the source. *)
Definition prop (v : value) (k : string) : value :=
  match v with
  | VObj m => default VUndefined (m !! k)
  | _ => VUndefined
  end.

(** The own enumerable properties that [Object.assign({}, v)] and
    [{...v}] copy: the fields of an object, the indexed elements of an
    array, a byte array or a string, and nothing for other values. *)
Definition indexed {A} (f : A -> value) (l : list A) : gmap string value :=
  list_to_map (imap (fun i x => (pretty i, f x)) l).

Definition own_props (v : value) : gmap string value :=
  match v with
  | VObj m => m
  | VArr l => indexed id l
  | VBytes b => indexed (fun x => VNum (Z.of_N (Byte.to_N x))) b
  | VStr s => indexed (fun c => VStr (String c EmptyString)) (String.list_ascii_of_string s)
  | _ => ∅
  end.


(** Whether a property can be assigned on [v] in strict mode: on objects
    (arrays, byte arrays and functions are objects too), not on
    primitives. *)
Definition assignable (v : value) : bool :=
  match v with
  | VObj _ | VArr _ | VBytes _ | VFun _ => true
  | _ => false
  end.

End Js.

(** ** Programs over collaborators *)

Module Prog.
Import Js.

(** What a [throw] carries: an [Error] or a [TypeError] of the module
    itself (a [TypeError] is raised by the language: a property read on
    [null] or [undefined], a call of something that is no function, an
    assignment on a primitive), or any value a collaborator throws. *)
Inductive error : Type :=
| Error (msg : string)
| TypeError (msg : string)
| Thrown (v : value).

Inductive result (A : Type) : Type :=
| Ok (a : A)
| Err (e : error).
Arguments Ok {A} a.
Arguments Err {A} e.

(** A content identifier of multiformats, as its binary form. *)
Inductive CID : Type := Cid (digest : list byte).

(** The block that [Block.encode] and [Block.decode] return. *)
Record block : Type := Block { cid : CID; bytes : list byte; value_of : value }.

(** The collaborator calls of the module, indexed by what they return:
    - [Clock(publicKey)] of [./clock.js];
    - [Block.encode({ value, codec, hasher })] and
      [Block.decode({ bytes, codec, hasher })] of multiformats, with the
      dag-cbor codec and the sha-256 hasher;
    - [cid.toString(base58btc)];
    - [f(args)] for a function [f] supplied by the caller: the signer
      [identity.sign], the verifier [identities.verify] and the four
      encryption callbacks. *)
Inductive call : Type -> Type :=
| Clock (publicKey : value) : call value
| Block_encode (v : value) : call block
| Block_decode (bytes : value) : call block
| CID_toString (c : CID) : call string
| Apply (f : string) (args : list value) : call value.

(** A program: it returns, throws, or awaits a collaborator and goes on
    with the outcome of the call, which is a result or an exception. *)
Inductive prog (A : Type) : Type :=
| Ret (a : A)
| Throw (e : error)
| Call (X : Type) (c : call X) (k : result X -> prog A).
Arguments Ret {A} a.
Arguments Throw {A} e.
Arguments Call {A X} c k.

Fixpoint bind {A B} (p : prog A) (f : A -> prog B) : prog B :=
  match p with
  | Ret a => f a
  | Throw e => Throw e
  | Call c k => Call c (fun r => bind (k r) f)
  end.

(** [await c]: an exception of the collaborator is rethrown here. *)
Definition await {X} (c : call X) : prog X :=
  Call c (fun r => match r with Ok x => Ret x | Err e => Throw e end).

(** [try { p } catch (e) { h e }] *)
Fixpoint try_catch {A} (p : prog A) (h : error -> prog A) : prog A :=
  match p with
  | Ret a => Ret a
  | Throw e => h e
  | Call c k => Call c (fun r => try_catch (k r) h)
  end.

(** [v.k] as a statement: a [TypeError] on [null] and [undefined]. *)
Definition get (v : value) (k : string) : prog value :=
  if nullish v then Throw (TypeError ("Cannot read property " +:+ k))
  else Ret (prop v k).

(** [await f(args)] for a value [f]: a [TypeError] unless [f] is a function. *)
Definition apply (f : value) (args : list value) : prog value :=
  match f with
  | VFun h => await (Apply h args)
  | _ => Throw (TypeError "not a function")
  end.

(** [v.k = x] as a statement, in strict mode: a [TypeError] on a
    primitive.  An array, a byte array or a function that gains a named
    property is carried on as the object of its own properties, which is
    all the module reads of it afterwards (through a spread). *)
Definition set (v : value) (k : string) (x : value) : prog value :=
  if assignable v then Ret (VObj (<[k := x]> (own_props v)))
  else Throw (TypeError ("Cannot set property " +:+ k)).

(** The environment: what each collaborator call yields, a result or an
    exception.  An environment answers a call by its arguments alone: the
    codec and the hasher are deterministic, and so are, in this model,
    the caller's functions. *)
Definition collaborators : Type := forall X, call X -> result X.

(** Running a program in an environment. *)
Fixpoint run {A} (h : collaborators) (p : prog A) : result A :=
  match p with
  | Ret a => Ok a
  | Throw e => Err e
  | Call c k => run h (k (h _ c))
  end.

(** The collaborator calls a run makes, in order. *)
Inductive event : Type := Event (X : Type) (c : call X).
Arguments Event {X} c.

Fixpoint calls {A} (h : collaborators) (p : prog A) : list event :=
  match p with
  | Ret _ | Throw _ => []
  | Call c k => Event c :: calls h (k (h _ c))
  end.

Declare Scope prog_scope.
Delimit Scope prog_scope with prog.
Notation "x <- p ;; q" := (bind p (fun x => q))
  (at level 100, p at next level, right associativity) : prog_scope.

End Prog.

(** ** The entry module *)

Module Entry.
Import Js Prog.
Local Open Scope prog_scope.

(** A parameter with a default value: the default stands in for an
    omitted argument, that is for [undefined]. *)
Definition param (v d : value) : value :=
  match v with
  | VUndefined => d
  | _ => v
  end.

(** [isEntry(obj)] *)
Definition isEntry (obj : value) : value :=
  logical_and obj
    (logical_and (VBool (defined (prop obj "id")))
    (logical_and (VBool (defined (prop obj "next")))
    (logical_and (VBool (defined (prop obj "payload")))
    (logical_and (VBool (defined (prop obj "v")))
    (logical_and (VBool (defined (prop obj "clock")))
         (VBool (defined (prop obj "refs")))))))).


(** The object literal that [create] builds before signing. *)
Definition unsigned (id payload next refs clock : value) : gmap string value :=
  {[ "id" := id;
     "payload" := payload;
     "next" := next;
     "refs" := refs;
     "clock" := clock;
     "v" := VNum 2 ]}.

(** [clock = clock || Clock(identity.publicKey)] *)
Definition clock_or_new (identity clock : value) : prog value :=
  if truthy clock then Ret clock else await (Clock (prop identity "publicKey")).

(** The payload encryption of [create]: [encryptedPayload] stays
    [undefined] without an [encryptPayloadFn]. *)
Definition encrypt_payload (payload encryptPayloadFn : value) : prog value :=
  if truthy encryptPayloadFn then
    encoded <- await (Block_encode payload);;
    apply encryptPayloadFn [VBytes (bytes encoded)]
  else Ret VUndefined.

(** The assignments of [create] after signing. *)
Definition sign_off (identity payload encryptPayloadFn encryptedPayload signature : value)
    (entry : gmap string value) : gmap string value :=
  let entry := <["key" := prop identity "publicKey"]> entry in
  let entry := <["identity" := prop identity "hash"]> entry in
  let entry := <["sig" := signature]> entry in
  let entry := <["payload" := payload]> entry in
  if truthy encryptPayloadFn then <["_payload" := encryptedPayload]> entry
  else entry.

(** [create(identity, id, payload, encryptPayloadFn, clock = null, next = [], refs = [])] *)
Definition create (identity id payload encryptPayloadFn clock next refs : value)
    : prog value :=
  let clock := param clock VNull in
  let next := param next (VArr []) in
  let refs := param refs (VArr []) in
  if nullish identity then Throw (Error "Identity is required, cannot create entry") else
  if nullish id then Throw (Error "Entry requires an id") else
  if nullish payload then Throw (Error "Entry requires a payload") else
  if nullish next || negb (isArray next) then Throw (Error "'next' argument is not an array") else
  clock <- clock_or_new identity clock;;
  encryptedPayload <- encrypt_payload payload encryptPayloadFn;;
  let entry := unsigned id (logical_or encryptedPayload payload) next refs clock in
  signed <- await (Block_encode (VObj entry));;
  signature <- apply (prop identity "sign") [identity; VBytes (bytes signed)];;
  Ret (VObj (sign_off identity payload encryptPayloadFn encryptedPayload signature entry)).

(** The snapshot that [verify] rebuilds from an entry and hands to the
    codec. *)
Definition snapshot (entry : value) : value :=
  let e := VObj (own_props entry) in
  VObj {[ "id" := prop e "id";
          "payload" := logical_or (prop e "_payload") (prop e "payload");
          "next" := prop e "next";
          "refs" := prop e "refs";
          "clock" := prop e "clock";
          "v" := prop e "v" ]}.

(** [verify(identities, entry)] *)
Definition verify (identities entry : value) : prog value :=
  if negb (truthy identities) then Throw (Error "Identities is required, cannot verify entry") else
  if negb (truthy (isEntry entry)) then Throw (Error "Invalid Log entry") else
  if negb (truthy (prop entry "key")) then Throw (Error "Entry doesn't have a key") else
  if negb (truthy (prop entry "sig")) then Throw (Error "Entry doesn't have a signature") else
  encoded <- await (Block_encode (snapshot entry));;
  apply (prop identities "verify")
        [prop entry "sig"; prop entry "key"; VBytes (bytes encoded)].

(** The body of the first [try] block of [decode]: the plaintext bytes
    and the content identifier of the wrapper. *)
Definition decrypt_entry (bytes decryptEntryFn : value) : prog (value * option CID) :=
  encryptedEntry <- await (Block_decode bytes);;
  bytes <- apply decryptEntryFn [value_of encryptedEntry];;
  Ret (bytes, Some (cid encryptedEntry)).

(** The body of the second [try] block of [decode]: the entry after its
    two assignments. *)
Definition decrypt_payload (entry decryptPayloadFn : value) : prog value :=
  ciphertext <- get entry "payload";;
  decryptedPayloadBytes <- apply decryptPayloadFn [ciphertext];;
  decoded <- await (Block_decode decryptedPayloadBytes);;
  let decryptedPayload := value_of decoded in
  ciphertext <- get entry "payload";;
  entry <- set entry "_payload" ciphertext;;
  set entry "payload" decryptedPayload.

(** [decode(bytes, decryptEntryFn, decryptPayloadFn)] *)
Definition decode (bytes decryptEntryFn decryptPayloadFn : value) : prog value :=
  outer <-
    (if truthy decryptEntryFn then
       try_catch (decrypt_entry bytes decryptEntryFn)
                 (fun _ => Throw (Error "Could not decrypt entry"))
     else Ret (bytes, None));;
  decodedEntry <- await (Block_decode outer.1);;
  entry <-
    (if truthy decryptPayloadFn then
       try_catch (decrypt_payload (value_of decodedEntry) decryptPayloadFn)
                 (fun _ => Throw (Error "Could not decrypt payload"))
     else Ret (value_of decodedEntry));;
  let cid := default (cid decodedEntry) outer.2 in
  hash <- await (CID_toString cid);;
  Ret (VObj (<["hash" := VStr hash]> (own_props entry))).

(** The object that [encode] hands to the codec: a copy of the entry,
    with the cached ciphertext as payload when payload encryption is on,
    and without [_payload] and [hash]. *)
Definition persisted (entry encryptPayloadFn : value) : gmap string value :=
  let e := own_props entry in
  let e :=
    if truthy encryptPayloadFn then <["payload" := prop (VObj e) "_payload"]> e
    else e in
  let e := delete "_payload" e in
  delete "hash" e.

(** [encode(entry, encryptEntryFn, encryptPayloadFn)] *)
Definition encode (entry encryptEntryFn encryptPayloadFn : value) : prog value :=
  let e := persisted entry encryptPayloadFn in
  encoded <- await (Block_encode (VObj e));;
  outer <-
    (if truthy encryptEntryFn then
       bytes <- apply encryptEntryFn [VBytes (bytes encoded)];;
       await (Block_encode bytes)
     else Ret encoded);;
  hash <- await (CID_toString (cid outer));;
  Ret (VObj {[ "hash" := VStr hash; "bytes" := VBytes (bytes outer) ]}).

(** The messages of the errors that [create] and [verify] throw
    themselves, in the order of the checks. *)
Definition create_errors : list string :=
  [ "Identity is required, cannot create entry";
    "Entry requires an id";
    "Entry requires a payload";
    "'next' argument is not an array" ].


(** The fields that [isEntry] tests, and the other fields of the
    persisted shape. *)
Definition entry_fields : list string := ["id"; "next"; "payload"; "v"; "clock"; "refs"].
Definition signature_fields : list string := ["key"; "identity"; "sig"].

End Entry.

(** ** What the module expects of its collaborators *)

Module Contract.
Import Js Prog.

(** The identity system accepts, under the public key of an identity,
    every signature that the identity's signer produces. *)
Definition accepts_own_signatures (h : collaborators) (identity identities : value) : Prop :=
  exists sign verify : string,
    prop identity "sign" = VFun sign /\
    prop identities "verify" = VFun verify /\
    forall (bs : list byte) (sig : value),
      h _ (Apply sign [identity; VBytes bs]) = Ok sig ->
      h _ (Apply verify [sig; prop identity "publicKey"; VBytes bs]) = Ok (VBool true).

(** A decryption function that undoes an encryption function. *)
Definition inverse_cipher (h : collaborators) (encrypt decrypt : value) : Prop :=
  exists f g : string,
    encrypt = VFun f /\ decrypt = VFun g /\
    forall (bs : list byte) (c : value),
      h _ (Apply f [VBytes bs]) = Ok c -> h _ (Apply g [c]) = Ok (VBytes bs).

(** The codec encodes [v], and decodes the bytes back to [v] under the
    same content identifier. *)
Definition roundtrips (h : collaborators) (v : value) : Prop :=
  exists b : block,
    h _ (Block_encode v) = Ok b /\
    h _ (Block_decode (VBytes (bytes b))) = Ok (Block (cid b) (bytes b) v).

(** Every content identifier has a string form. *)
Definition prints (h : collaborators) : Prop :=
  forall c : CID, exists s : string, h _ (CID_toString c) = Ok s.

End Contract.

(** ** A sample environment

    Concrete collaborators on which the module runs: a small
    self-delimiting binary codec for values (which, like dag-cbor, has no
    encoding for [undefined] or for functions), a checksum in place of
    the hasher, a keyed checksum as signature scheme, and a byte-wise
    XOR as cipher. *)

Module Sample.
Import Js Prog.

Definition byte_of (n : N) : byte := default x00 (Byte.of_N (n mod 256)).

(** A number as its count of base-256 digits, then the digits, lowest first. *)
Fixpoint digits (fuel : nat) (n : N) : list byte :=
  match fuel with
  | O => []
  | S fuel => if (n =? 0)%N then [] else byte_of n :: digits fuel (n / 256)
  end.

Definition undigits (l : list byte) : N :=
  foldr (fun b acc => (Byte.to_N b + 256 * acc)%N) 0%N l.

Definition put_num (n : N) : list byte :=
  let d := digits (N.size_nat n) n in byte_of (N.of_nat (length d)) :: d.

Definition put_str (s : string) : list byte :=
  let b := String.list_byte_of_string s in put_num (N.of_nat (length b)) ++ b.

Definition sequence {A} (l : list (option A)) : option (list A) :=
  foldr (fun o acc => x ← o; xs ← acc; Some (x :: xs)) (Some []) l.

Fixpoint ser (v : value) : option (list byte) :=
  match v with
  | VUndefined | VFun _ => None
  | VNull => Some [x00]
  | VBool false => Some [x01]
  | VBool true => Some [x02]
  | VNum n => Some (x03 :: (if (n <? 0)%Z then x01 else x00) :: put_num (Z.abs_N n))
  | VStr s => Some (x04 :: put_str s)
  | VBytes b => Some (x05 :: put_num (N.of_nat (length b)) ++ b)
  | VArr l =>
      items ← sequence (map ser l);
      Some (x06 :: put_num (N.of_nat (length l)) ++ concat items)
  | VObj m =>
      fields ← sequence
        (map (fun kv => b ← kv.2; Some (put_str kv.1 ++ b)) (map_to_list (ser <$> m)));
      Some (x07 :: put_num (N.of_nat (size m)) ++ concat fields)
  end.

Definition parser (A : Type) : Type := list byte -> option (A * list byte).

Definition get_num : parser N := fun bs =>
  match bs with
  | [] => None
  | n :: r =>
      let k := N.to_nat (Byte.to_N n) in
      if decide (k <= length r)%nat then Some (undigits (take k r), drop k r) else None
  end.

Definition get_bytes : parser (list byte) := fun bs =>
  '(n, r) ← get_num bs;
  let k := N.to_nat n in
  if decide (k <= length r)%nat then Some (take k r, drop k r) else None.

Definition get_str : parser string := fun bs =>
  '(b, r) ← get_bytes bs; Some (String.string_of_list_byte b, r).

Fixpoint many {A} (p : parser A) (n : nat) : parser (list A) := fun bs =>
  match n with
  | O => Some ([], bs)
  | S n => '(x, r) ← p bs; '(xs, r) ← many p n r; Some (x :: xs, r)
  end.

Fixpoint parse (fuel : nat) : parser value := fun bs =>
  match fuel with
  | O => None
  | S fuel =>
      match bs with
      | x00 :: r => Some (VNull, r)
      | x01 :: r => Some (VBool false, r)
      | x02 :: r => Some (VBool true, r)
      | x03 :: s :: r =>
          '(n, r) ← get_num r;
          Some (VNum (if Byte.eqb s x00 then Z.of_N n else - Z.of_N n), r)
      | x04 :: r => '(s, r) ← get_str r; Some (VStr s, r)
      | x05 :: r => '(b, r) ← get_bytes r; Some (VBytes b, r)
      | x06 :: r =>
          '(n, r) ← get_num r;
          '(items, r) ← many (parse fuel) (N.to_nat n) r;
          Some (VArr items, r)
      | x07 :: r =>
          '(n, r) ← get_num r;
          '(fields, r) ←
            many (fun bs => '(k, r) ← get_str bs; '(v, r) ← parse fuel r; Some ((k, v), r))
                 (N.to_nat n) r;
          Some (VObj (list_to_map fields), r)
      | _ => None
      end
  end.

Definition deser (bs : list byte) : option value :=
  '(v, r) ← parse (S (length bs)) bs;
  match r with [] => Some v | _ => None end.

(** In place of sha-256: a 32-bit polynomial checksum. *)
Definition digest (bs : list byte) : list byte :=
  let h := foldl (fun acc b => ((acc * 31 + Byte.to_N b) mod 4294967296)%N) 7%N bs in
  [byte_of (h / 16777216); byte_of (h / 65536); byte_of (h / 256); byte_of h].

Definition bytes_eqb (a b : list byte) : bool :=
  Nat.eqb (length a) (length b) && forallb (fun xy => Byte.eqb xy.1 xy.2) (zip a b).

Definition xor_bytes (b : list byte) : list byte :=
  map (fun x => byte_of (N.lxor (Byte.to_N x) 90)) b.

Definition key_bytes (key : value) : list byte :=
  match key with
  | VStr s => String.list_byte_of_string s
  | _ => []
  end.

(** The caller-supplied functions, by handle. *)
Definition run_fn (f : string) (args : list value) : result value :=
  if String.eqb f "sign" then
    match args with
    | [identity; VBytes b] =>
        Ok (VBytes (digest (key_bytes (prop identity "publicKey") ++ b)))
    | _ => Err (Error "sign: bad arguments")
    end
  else if String.eqb f "verify" then
    match args with
    | [VBytes s; key; VBytes b] => Ok (VBool (bytes_eqb s (digest (key_bytes key ++ b))))
    | _ => Ok (VBool false)
    end
  else if String.eqb f "seal" || String.eqb f "open" then
    match args with
    | [VBytes b] => Ok (VBytes (xor_bytes b))
    | _ => Err (Error "cipher: not bytes")
    end
  else if String.eqb f "fail" then Err (Error "boom")
  else Err (TypeError "unknown function").

Definition env : collaborators := fun X c =>
  match c in call X return result X with
  | Clock publicKey => Ok (VObj {[ "id" := publicKey; "time" := VNum 0 ]})
  | Block_encode v =>
      match ser v with
      | Some bs => Ok (Block (Cid (digest bs)) bs v)
      | None => Err (Error "value cannot be encoded")
      end
  | Block_decode (VBytes bs) =>
      match deser bs with
      | Some v => Ok (Block (Cid (digest bs)) bs v)
      | None => Err (Error "bytes cannot be decoded")
      end
  | Block_decode _ => Err (Error "bytes cannot be decoded")
  | CID_toString (Cid d) => Ok ("z" +:+ pretty (undigits d))
  | Apply f args => run_fn f args
  end.

Definition identityA : value :=
  VObj {[ "publicKey" := VStr "02ab"; "hash" := VStr "zdpuIdentityA"; "sign" := VFun "sign" ]}.

Definition identities : value := VObj {[ "verify" := VFun "verify" ]}.

End Sample.


(** * Properties *)

Import Js Prog.
Local Open Scope prog_scope.

(** ** Running programs *)

Section Running.
Context (h : collaborators).

Lemma run_bind {A B} (p : prog A) (f : A -> prog B) :
  run h (x <- p;; f x) = match run h p with Ok a => run h (f a) | Err e => Err e end.
Proof. induction p as [a|e|X c k IH]; simpl; auto. Qed.

Lemma run_await {X} (c : call X) : run h (await c) = h X c.
Proof. simpl. destruct (h X c); reflexivity. Qed.

Lemma run_try_catch {A} (p : prog A) (k : error -> prog A) :
  run h (try_catch p k) = match run h p with Ok a => Ok a | Err e => run h (k e) end.
Proof. induction p as [a|e|X c k' IH]; simpl; auto. Qed.

Lemma run_apply (f : string) (args : list value) :
  run h (apply (VFun f) args) = h value (Apply f args).
Proof. unfold apply. apply run_await. Qed.

(** A sequence returns exactly when its first part returns and the
    rest returns on that result. *)
Lemma run_ok_bind {A B} (p : prog A) (f : A -> prog B) (b : B) :
  run h (x <- p;; f x) = Ok b <-> exists a, run h p = Ok a /\ run h (f a) = Ok b.
Proof.
  rewrite run_bind. destruct (run h p) as [a|e].
  - split; [eauto|]. intros (a' & [= <-] & H). exact H.
  - split; [discriminate|]. intros (a' & [=] & _).
Qed.

(** A [try] whose handler rethrows returns exactly when its body does. *)
Lemma run_try_ok {A} (p : prog A) (e' : error) (a : A) :
  run h (try_catch p (fun _ => Throw e')) = Ok a <-> run h p = Ok a.
Proof. rewrite run_try_catch. destruct (run h p); simpl; split; congruence. Qed.

Lemma run_try_err {A} (p : prog A) (e e' : error) :
  run h p = Err e -> run h (try_catch p (fun _ => Throw e')) = Err e'.
Proof. intros H. rewrite run_try_catch, H. reflexivity. Qed.

End Running.

(** ** Values *)

Lemma truthy_defined (v : value) : truthy v = true -> defined v = true.
Proof. destruct v; simpl; congruence. Qed.

Lemma truthy_not_nullish (v : value) : truthy v = true -> nullish v = false.
Proof. destruct v; simpl; congruence. Qed.

Lemma not_nullish_defined (v : value) : nullish v = false -> defined v = true.
Proof. destruct v; simpl; congruence. Qed.

Lemma defined_iff (v : value) : defined v = true <-> v <> VUndefined.
Proof. destruct v; simpl; split; congruence. Qed.

Lemma prop_insert (m : gmap string value) (k k' : string) (v : value) :
  prop (VObj (<[k := v]> m)) k' = if decide (k = k') then v else prop (VObj m) k'.
Proof. unfold prop. rewrite lookup_insert. destruct (decide (k = k')); reflexivity. Qed.

Lemma prop_delete (m : gmap string value) (k k' : string) :
  prop (VObj (delete k m)) k' = if decide (k = k') then VUndefined else prop (VObj m) k'.
Proof. unfold prop. rewrite lookup_delete. destruct (decide (k = k')); reflexivity. Qed.

Lemma prop_empty (k : string) : prop (VObj ∅) k = VUndefined.
Proof. unfold prop. rewrite lookup_empty. reflexivity. Qed.

(** ** [isEntry] *)

Lemma isEntry_forallb (obj : value) :
  Entry.isEntry obj =
  logical_and obj (VBool (forallb (fun k => defined (prop obj k)) Entry.entry_fields)).
Proof.
  unfold Entry.isEntry, logical_and; simpl.
  repeat match goal with |- context [defined ?x] => destruct (defined x); simpl end;
    reflexivity.
Qed.

Lemma forallb_agree {A} (f g : A -> bool) (l : list A) :
  (forall x, x ∈ l -> f x = g x) -> forallb f l = forallb g l.
Proof.
  induction l as [|x l IH]; simpl; intros H; [reflexivity|].
  rewrite (H x), IH; [reflexivity| |left].
  intros y Hy. apply H. right. exact Hy.
Qed.

Lemma fields_defined_iff (obj : value) (l : list string) :
  forallb (fun k => defined (prop obj k)) l = true <->
  Forall (fun k => prop obj k <> VUndefined) l.
Proof.
  rewrite forallb_forall, Forall_forall.
  split; intros H k Hk; apply defined_iff, H, list_elem_of_In, Hk.
Qed.

(** C7.  For every value [obj], and so for every object, [isEntry(obj)]
    is [true] exactly when each of [id], [next], [payload], [v], [clock]
    and [refs] is defined on it; on an object the result is a boolean,
    and adding, changing or removing any other field (such as [key],
    [sig] or [hash]) does not change it. *)
Theorem isEntry_iff_fields_defined :
  (forall obj : value,
     Entry.isEntry obj = VBool true <->
     Forall (fun k => prop obj k <> VUndefined) Entry.entry_fields) /\
  (forall m : gmap string value,
     Entry.isEntry (VObj m) = VBool true \/ Entry.isEntry (VObj m) = VBool false) /\
  (forall (m : gmap string value) (k : string) (v : value),
     k ∉ Entry.entry_fields ->
     Entry.isEntry (VObj (<[k := v]> m)) = Entry.isEntry (VObj m) /\
     Entry.isEntry (VObj (delete k m)) = Entry.isEntry (VObj m)).
Proof.
  split; [|split].
  - intros obj. rewrite <- fields_defined_iff, isEntry_forallb.
    destruct obj as [| |b|n|s|b|l|m|f]; unfold logical_and; simpl;
      try (split; discriminate);
      try (destruct b; simpl; split; discriminate);
      try (destruct (n =? 0)%Z; simpl; split; discriminate);
      try (destruct (String.eqb s ""); simpl; split; discriminate).
    split; [intros H; injection H as H; exact H | intros H; f_equal; exact H].
  - intros m. rewrite isEntry_forallb. unfold logical_and; simpl truthy; cbv iota.
    match goal with |- context [forallb ?f ?l] => destruct (forallb f l) end; auto.
  - intros m k v Hk. rewrite !isEntry_forallb. unfold logical_and; simpl truthy; cbv iota.
    assert (Hne : forall k', k' ∈ Entry.entry_fields -> k <> k') by (intros k' Hk' ->; auto).
    split; f_equal; apply forallb_agree; intros k' Hk'%Hne.
    + rewrite prop_insert. destruct (decide (k = k')); congruence.
    + rewrite prop_delete. destruct (decide (k = k')); congruence.
Qed.

Lemma isEntry_iff_fields_defined_witness :
  Entry.isEntry
    (VObj (<["hash" := VStr "zdpuAkx"]>
       (Entry.unsigned (VStr "log1") (VStr "hello") (VArr []) (VArr []) (VNum 1))))
  = Entry.isEntry
      (VObj (Entry.unsigned (VStr "log1") (VStr "hello") (VArr []) (VArr []) (VNum 1))).
Proof.
  destruct isEntry_iff_fields_defined as (_ & _ & Hother).
  refine (proj1 (Hother _ "hash" (VStr "zdpuAkx") _)).
  intros H. apply list_elem_of_In in H. simpl in H. intuition discriminate.
Defined.

(** ** [isEqual] *)




(** ** [create]: validation *)

(** C4.  When [identity], [id] or [payload] is [null] or [undefined], or
    [next] (an omitted [next] being the empty array) is not an array,
    [create] is the [throw] of the error of the first failing check and
    nothing else: the program has no collaborator call, so no run of it
    makes one.  Otherwise it is no [throw]: it goes on to its first
    collaborator call. *)
Theorem create_validates (identity id payload encryptPayloadFn clock next refs : value) :
  let invalid :=
    nullish identity || nullish id || nullish payload ||
    negb (isArray (Entry.param next (VArr []))) in
  let p := Entry.create identity id payload encryptPayloadFn clock next refs in
  (invalid = true ->
   p = Throw (Error
         (if nullish identity then "Identity is required, cannot create entry"
          else if nullish id then "Entry requires an id"
          else if nullish payload then "Entry requires a payload"
          else "'next' argument is not an array")) /\
   (exists msg, msg ∈ Entry.create_errors /\ p = Throw (Error msg)) /\
   (forall h, calls h p = [])) /\
  (invalid = false ->
   (forall e, p <> Throw e) /\ (exists X (c : call X) k, p = Call c k)).
Proof.
  intros invalid p. subst invalid p. unfold Entry.create.
  assert (Hn : forall v, nullish v || negb (isArray v) = negb (isArray v))
    by (intros []; reflexivity).
  rewrite Hn.
  destruct (nullish identity); [|destruct (nullish id); [|destruct (nullish payload);
    [|destruct (isArray (Entry.param next (VArr []))) eqn:Hnext]]]; simpl orb; simpl negb;
    cbv iota.
  1-3,5: split; [intros _|discriminate];
    (split; [reflexivity|split; [|reflexivity]]);
    eexists; (split; [|reflexivity]); unfold Entry.create_errors; set_solver.
  split; [discriminate|intros _].
  unfold Entry.clock_or_new, Entry.encrypt_payload.
  destruct (truthy (Entry.param clock VNull)), (truthy encryptPayloadFn); simpl;
    (split; [discriminate|eexists _, _, _; reflexivity]).
Qed.

Lemma create_validates_witness :
  Entry.create VNull (VStr "log1") (VStr "hello") VUndefined VUndefined VUndefined VUndefined
  = Throw (Error "Identity is required, cannot create entry") /\
  (forall e,
     Entry.create Sample.identityA (VStr "log1") (VStr "hello")
                  VUndefined VUndefined VUndefined VUndefined <> Throw e).
Proof.
  split.
  - apply (create_validates VNull (VStr "log1") (VStr "hello")
             VUndefined VUndefined VUndefined VUndefined).
    reflexivity.
  - apply (create_validates Sample.identityA (VStr "log1") (VStr "hello")
             VUndefined VUndefined VUndefined VUndefined).
    reflexivity.
Defined.

(** ** [verify]: errors *)




(** ** Reading fields of built objects *)

Lemma prop_singleton (k k' : string) (v : value) :
  prop (VObj {[ k := v ]}) k' = if decide (k = k') then v else VUndefined.
Proof. unfold prop. rewrite lookup_singleton. destruct (decide (k = k')); reflexivity. Qed.

Lemma prop_function_object (v : value) (k f : string) :
  prop v k = VFun f -> truthy v = true /\ nullish v = false.
Proof. destruct v; simpl; try discriminate. auto. Qed.

Lemma prop_insert_eq (m : gmap string value) (k : string) (v : value) :
  prop (VObj (<[k := v]> m)) k = v.
Proof. rewrite prop_insert, decide_True; reflexivity. Qed.

Lemma prop_insert_ne (m : gmap string value) (k k' : string) (v : value) :
  k <> k' -> prop (VObj (<[k := v]> m)) k' = prop (VObj m) k'.
Proof. intros H. rewrite prop_insert, decide_False; [reflexivity|exact H]. Qed.

Lemma prop_delete_eq (m : gmap string value) (k : string) :
  prop (VObj (delete k m)) k = VUndefined.
Proof. rewrite prop_delete, decide_True; reflexivity. Qed.

Lemma prop_delete_ne (m : gmap string value) (k k' : string) :
  k <> k' -> prop (VObj (delete k m)) k' = prop (VObj m) k'.
Proof. intros H. rewrite prop_delete, decide_False; [reflexivity|exact H]. Qed.

Lemma prop_singleton_eq (k : string) (v : value) : prop (VObj {[ k := v ]}) k = v.
Proof. rewrite prop_singleton, decide_True; reflexivity. Qed.

Lemma prop_singleton_ne (k k' : string) (v : value) :
  k <> k' -> prop (VObj {[ k := v ]}) k' = VUndefined.
Proof. intros H. rewrite prop_singleton, decide_False; [reflexivity|exact H]. Qed.

(** Reads of fields with literal names from objects built by literal
    inserts and deletes. *)
Ltac props :=
  repeat first
    [ rewrite prop_insert_eq
    | rewrite prop_insert_ne by discriminate
    | rewrite prop_delete_eq
    | rewrite prop_delete_ne by discriminate
    | rewrite prop_singleton_eq
    | rewrite prop_singleton_ne by discriminate
    | rewrite prop_empty ].

(** ** [create]: what a run returns *)

Lemma create_run (h : collaborators)
    (identity id payload encryptPayloadFn clock next refs e : value) :
  run h (Entry.create identity id payload encryptPayloadFn clock next refs) = Ok e <->
  nullish identity = false /\ nullish id = false /\ nullish payload = false /\
  isArray (Entry.param next (VArr [])) = true /\
  exists (c encryptedPayload : value) (signed : block) (signature : value),
    run h (Entry.clock_or_new identity (Entry.param clock VNull)) = Ok c /\
    run h (Entry.encrypt_payload payload encryptPayloadFn) = Ok encryptedPayload /\
    h _ (Block_encode (VObj (Entry.unsigned id (logical_or encryptedPayload payload)
           (Entry.param next (VArr [])) (Entry.param refs (VArr [])) c))) = Ok signed /\
    run h (apply (prop identity "sign") [identity; VBytes (bytes signed)]) = Ok signature /\
    e = VObj (Entry.sign_off identity payload encryptPayloadFn encryptedPayload signature
                (Entry.unsigned id (logical_or encryptedPayload payload)
                   (Entry.param next (VArr [])) (Entry.param refs (VArr [])) c)).
Proof.
  unfold Entry.create.
  replace (nullish (Entry.param next (VArr [])) || negb (isArray (Entry.param next (VArr []))))
    with (negb (isArray (Entry.param next (VArr []))))
    by (destruct (Entry.param next (VArr [])); reflexivity).
  destruct (nullish identity); [simpl; split; [discriminate|intros [[=] _]]|].
  destruct (nullish id); [simpl; split; [discriminate|intros (_ & [=] & _)]|].
  destruct (nullish payload); [simpl; split; [discriminate|intros (_ & _ & [=] & _)]|].
  destruct (isArray (Entry.param next (VArr [])));
    [|simpl; split; [discriminate|intros (_ & _ & _ & [=] & _)]].
  simpl negb; cbv iota.
  rewrite run_ok_bind. setoid_rewrite run_ok_bind. setoid_rewrite run_ok_bind.
  setoid_rewrite run_ok_bind. setoid_rewrite run_await. simpl run.
  split.
  - intros (c & Hc & ep & Hep & signed & Hs & sig & Hsig & [= <-]).
    repeat split. exists c, ep, signed, sig. auto.
  - intros (_ & _ & _ & _ & c & ep & signed & sig & Hc & Hep & Hs & Hsig & ->).
    exists c. split; [exact Hc|]. exists ep. split; [exact Hep|].
    exists signed. split; [exact Hs|]. exists sig. split; [exact Hsig|]. reflexivity.
Qed.

(** ** [verify]: what a run returns *)

Lemma verify_run (h : collaborators) (identities entry : value)
    (f : string) (encoded : block) :
  Entry.isEntry entry = VBool true ->
  truthy (prop entry "key") = true ->
  truthy (prop entry "sig") = true ->
  prop identities "verify" = VFun f ->
  h _ (Block_encode (Entry.snapshot entry)) = Ok encoded ->
  run h (Entry.verify identities entry) =
  h _ (Apply f [prop entry "sig"; prop entry "key"; VBytes (bytes encoded)]).
Proof.
  intros He Hk Hs Hf Henc. unfold Entry.verify.
  destruct (prop_function_object _ _ _ Hf) as [-> _].
  rewrite He, Hk, Hs. simpl negb; cbv iota.
  rewrite run_bind, run_await, Henc, Hf. apply run_apply.
Qed.

(** The entry that [create] returns without payload encryption. *)
Lemma created_plain_entry (identity id payload encryptPayloadFn signature next refs c : value) :
  let e := VObj (Entry.sign_off identity payload encryptPayloadFn VUndefined signature
                   (Entry.unsigned id (logical_or VUndefined payload) next refs c)) in
  truthy encryptPayloadFn = false ->
  nullish id = false -> nullish payload = false -> isArray next = true ->
  refs <> VUndefined -> defined c = true ->
  Entry.isEntry e = VBool true /\
  prop e "key" = prop identity "publicKey" /\
  prop e "sig" = signature /\
  Entry.snapshot e = VObj (Entry.unsigned id payload next refs c).
Proof.
  intros e Henc Hid Hp Hn Hr Hc. subst e.
  unfold Entry.sign_off. rewrite Henc.
  unfold Entry.snapshot, own_props, Entry.unsigned, logical_or. simpl truthy. cbv iota.
  split; [|split; [|split]].
  - rewrite isEntry_forallb. unfold logical_and, Entry.entry_fields, forallb. simpl truthy.
    cbv iota. props.
    rewrite (not_nullish_defined id), (not_nullish_defined payload), Hc by assumption.
    apply defined_iff in Hr. rewrite Hr.
    destruct next; try discriminate. reflexivity.
  - props. reflexivity.
  - props. reflexivity.
  - props. reflexivity.
Qed.

(** ** Signing and verification *)

(** C1.  For valid arguments ([identity], [id] and [payload] not [null]
    or [undefined], [next] an array) and no payload encryption, on
    collaborators that do their part (the identity has a public key, the
    clock is defined, the codec encodes the signing object, the signer
    returns a signature, and the identity system accepts the signatures
    of its signer), [create] returns an entry and [verify] returns [true]
    on it. *)
Theorem verify_create_true (h : collaborators)
    (identity identities id payload encryptPayloadFn clock next refs : value)
    (c : value) (signed : block) (signature : value) :
  nullish identity = false -> nullish id = false -> nullish payload = false ->
  isArray (Entry.param next (VArr [])) = true ->
  truthy encryptPayloadFn = false ->
  truthy (prop identity "publicKey") = true ->
  run h (Entry.clock_or_new identity (Entry.param clock VNull)) = Ok c ->
  defined c = true ->
  h _ (Block_encode (VObj (Entry.unsigned id payload
         (Entry.param next (VArr [])) (Entry.param refs (VArr [])) c))) = Ok signed ->
  run h (apply (prop identity "sign") [identity; VBytes (bytes signed)]) = Ok signature ->
  truthy signature = true ->
  Contract.accepts_own_signatures h identity identities ->
  (exists e,
     run h (Entry.create identity id payload encryptPayloadFn clock next refs) = Ok e /\
     run h (Entry.verify identities e) = Ok (VBool true)) /\
  run h (e <- Entry.create identity id payload encryptPayloadFn clock next refs;;
         Entry.verify identities e) = Ok (VBool true).
Proof.
  intros Hidn Hid Hp Hn Henc Hpk Hc Hcd Hs Hsig Hsigt (sign & vf & Hsign & Hvf & Hacc).
  set (next' := Entry.param next (VArr [])) in *.
  set (refs' := Entry.param refs (VArr [])) in *.
  set (e := VObj (Entry.sign_off identity payload encryptPayloadFn VUndefined signature
                    (Entry.unsigned id (logical_or VUndefined payload) next' refs' c))).
  assert (Hcreate : run h (Entry.create identity id payload encryptPayloadFn clock next refs)
                    = Ok e).
  { apply create_run. repeat (split; [assumption|]).
    exists c, VUndefined, signed, signature.
    split; [exact Hc|]. split; [unfold Entry.encrypt_payload; rewrite Henc; reflexivity|].
    split; [exact Hs|]. split; [exact Hsig|]. reflexivity. }
  assert (Hrefs : refs' <> VUndefined) by (subst refs'; destruct refs; discriminate).
  destruct (created_plain_entry identity id payload encryptPayloadFn signature next' refs' c
              Henc Hid Hp Hn Hrefs Hcd) as (He & Hkey & Hsg & Hsnap).
  fold e in He, Hkey, Hsg, Hsnap.
  assert (Hverify : run h (Entry.verify identities e) = Ok (VBool true)).
  { rewrite (verify_run h identities e vf signed He); rewrite ?Hkey, ?Hsg, ?Hsnap; auto.
    apply Hacc. rewrite Hsign in Hsig. rewrite run_apply in Hsig. exact Hsig. }
  split; [exists e; auto|].
  rewrite run_bind, Hcreate. exact Hverify.
Qed.

(** The sample environment keeps the contracts. *)

Lemma bytes_eqb_refl (b : list byte) : Sample.bytes_eqb b b = true.
Proof.
  unfold Sample.bytes_eqb. rewrite Nat.eqb_refl. simpl.
  induction b as [|x b IH]; simpl; [reflexivity|].
  rewrite IH, andb_true_r. destruct x; reflexivity.
Qed.

Lemma sample_accepts_own_signatures :
  Contract.accepts_own_signatures Sample.env Sample.identityA Sample.identities.
Proof.
  exists "sign", "verify". split; [reflexivity|split; [reflexivity|]].
  intros bs sig H.
  change (Sample.run_fn "sign" [Sample.identityA; VBytes bs] = Ok sig) in H.
  change (Sample.run_fn "verify" [sig; prop Sample.identityA "publicKey"; VBytes bs]
          = Ok (VBool true)).
  unfold Sample.run_fn in *. simpl String.eqb in *. cbv iota in *.
  injection H as <-. rewrite bytes_eqb_refl. reflexivity.
Qed.

Lemma sample_prints : Contract.prints Sample.env.
Proof. intros [d]. eexists. reflexivity. Qed.

Lemma verify_create_true_witness :
  run Sample.env
    (e <- Entry.create Sample.identityA (VStr "log1") (VStr "hello")
            VUndefined VUndefined VUndefined VUndefined;;
     Entry.verify Sample.identities e) = Ok (VBool true).
Proof.
  eapply proj2.
  eapply (verify_create_true Sample.env Sample.identityA Sample.identities
            (VStr "log1") (VStr "hello") VUndefined VUndefined VUndefined VUndefined).
  all: try exact sample_accepts_own_signatures.
  all: vm_compute; reflexivity.
Defined.

(** ** [decode]: what a run returns *)

Lemma decrypt_payload_run (h : collaborators) (entry decryptPayloadFn entry' : value) :
  run h (Entry.decrypt_payload entry decryptPayloadFn) = Ok entry' <->
  assignable entry = true /\
  exists (plain : value) (decoded : block),
    run h (apply decryptPayloadFn [prop entry "payload"]) = Ok plain /\
    h _ (Block_decode plain) = Ok decoded /\
    entry' = VObj (<["payload" := value_of decoded]>
                     (<["_payload" := prop entry "payload"]> (own_props entry))).
Proof.
  unfold Entry.decrypt_payload, get, set.
  destruct (nullish entry) eqn:Hn.
  { simpl. split; [discriminate|]. intros [Ha _]. destruct entry; discriminate. }
  rewrite run_ok_bind. setoid_rewrite run_ok_bind. setoid_rewrite run_ok_bind.
  setoid_rewrite run_ok_bind. setoid_rewrite run_ok_bind. setoid_rewrite run_await.
  simpl run. destruct (assignable entry); simpl.
  - split.
    + intros (x & [= <-] & plain & Hp & decoded & Hd & y & [= <-] & z & [= <-] & [= <-]).
      split; [reflexivity|]. exists plain, decoded. auto.
    + intros (_ & plain & decoded & Hp & Hd & ->).
      eexists. split; [reflexivity|]. exists plain. split; [exact Hp|].
      exists decoded. split; [exact Hd|]. eexists. split; [reflexivity|].
      eexists. split; reflexivity.
  - split; [|intros [[=] _]].
    intros (x & _ & plain & _ & decoded & _ & y & _ & z & [=] & _).
Qed.

Lemma decode_run (h : collaborators) (bytes decryptEntryFn decryptPayloadFn d : value) :
  run h (Entry.decode bytes decryptEntryFn decryptPayloadFn) = Ok d <->
  exists (outer : value * option CID) (decodedEntry : block) (entry : value) (hash : string),
    (if truthy decryptEntryFn
     then run h (Entry.decrypt_entry bytes decryptEntryFn) = Ok outer
     else outer = (bytes, None)) /\
    h _ (Block_decode outer.1) = Ok decodedEntry /\
    (if truthy decryptPayloadFn
     then run h (Entry.decrypt_payload (value_of decodedEntry) decryptPayloadFn) = Ok entry
     else entry = value_of decodedEntry) /\
    h _ (CID_toString (default (cid decodedEntry) outer.2)) = Ok hash /\
    d = VObj (<["hash" := VStr hash]> (own_props entry)).
Proof.
  unfold Entry.decode.
  match goal with |- _ <-> ?R => set (rhs := R) end.
  rewrite run_ok_bind. setoid_rewrite run_ok_bind. setoid_rewrite run_ok_bind.
  setoid_rewrite run_ok_bind. setoid_rewrite run_await. simpl run. subst rhs.
  split.
  - intros (outer & Ho & decodedEntry & Hd & entry & He & hash & Hh & [= <-]).
    exists outer, decodedEntry, entry, hash.
    split; [|split; [exact Hd|split; [|split; [exact Hh|reflexivity]]]].
    + destruct (truthy decryptEntryFn); [apply run_try_ok in Ho; exact Ho|].
      simpl in Ho. congruence.
    + destruct (truthy decryptPayloadFn); [apply run_try_ok in He; exact He|].
      simpl in He. congruence.
  - intros (outer & decodedEntry & entry & hash & Ho & Hd & He & Hh & ->).
    exists outer. split.
    { destruct (truthy decryptEntryFn); [apply run_try_ok; exact Ho|]. subst. reflexivity. }
    exists decodedEntry. split; [exact Hd|]. exists entry. split.
    { destruct (truthy decryptPayloadFn); [apply run_try_ok; exact He|]. subst. reflexivity. }
    exists hash. split; [exact Hh|reflexivity].
Qed.

(** ** [encode] and [decode] without encryption *)

Lemma encode_run_plain (h : collaborators) (entry encryptEntryFn encryptPayloadFn : value)
    (encoded : block) (hash : string) :
  truthy encryptEntryFn = false ->
  h _ (Block_encode (VObj (Entry.persisted entry encryptPayloadFn))) = Ok encoded ->
  h _ (CID_toString (cid encoded)) = Ok hash ->
  run h (Entry.encode entry encryptEntryFn encryptPayloadFn) =
  Ok (VObj {[ "hash" := VStr hash; "bytes" := VBytes (bytes encoded) ]}).
Proof.
  intros He Henc Hh. unfold Entry.encode.
  rewrite run_bind, run_await, Henc, He. simpl. rewrite Hh. reflexivity.
Qed.

Lemma decode_run_plain (h : collaborators) (bytes decryptEntryFn decryptPayloadFn : value)
    (decoded : block) (hash : string) :
  truthy decryptEntryFn = false -> truthy decryptPayloadFn = false ->
  h _ (Block_decode bytes) = Ok decoded ->
  h _ (CID_toString (cid decoded)) = Ok hash ->
  run h (Entry.decode bytes decryptEntryFn decryptPayloadFn) =
  Ok (VObj (<["hash" := VStr hash]> (own_props (value_of decoded)))).
Proof.
  intros He Hp Hd Hh. apply decode_run.
  exists (bytes, None), decoded, (value_of decoded), hash.
  rewrite He, Hp. auto.
Qed.

(** C3.  For every entry (an object) and with no encryption or
    decryption function, on a codec that round-trips the object [encode]
    hands to it: [encode] returns a hash and bytes, and [decode] of those
    bytes returns an entry that agrees with the original on [id],
    [payload], [next], [refs], [clock], [v], [key], [identity] and [sig],
    and whose [hash] is the hash that [encode] returned. *)
Theorem decode_encode_roundtrip (h : collaborators) (m : gmap string value)
    (encryptEntryFn encryptPayloadFn decryptEntryFn decryptPayloadFn : value) :
  truthy encryptEntryFn = false -> truthy encryptPayloadFn = false ->
  truthy decryptEntryFn = false -> truthy decryptPayloadFn = false ->
  Contract.roundtrips h (VObj (Entry.persisted (VObj m) encryptPayloadFn)) ->
  Contract.prints h ->
  exists (hash : string) (bs : list byte) (d : value),
    run h (Entry.encode (VObj m) encryptEntryFn encryptPayloadFn) =
      Ok (VObj {[ "hash" := VStr hash; "bytes" := VBytes bs ]}) /\
    run h (Entry.decode (VBytes bs) decryptEntryFn decryptPayloadFn) = Ok d /\
    prop d "hash" = VStr hash /\
    Forall (fun k => prop d k = prop (VObj m) k)
           (Entry.entry_fields ++ Entry.signature_fields).
Proof.
  intros HeE HeP HdE HdP (b & Henc & Hdec) Hprints.
  destruct (Hprints (cid b)) as [hash Hhash].
  exists hash, (bytes b), (VObj (<["hash" := VStr hash]> (Entry.persisted (VObj m) encryptPayloadFn))).
  split; [apply encode_run_plain; assumption|].
  split; [rewrite (decode_run_plain h _ _ _ _ hash HdE HdP Hdec Hhash); reflexivity|].
  split; [props; reflexivity|].
  unfold Entry.persisted. rewrite HeP. simpl own_props.
  unfold Entry.entry_fields, Entry.signature_fields. simpl app.
  repeat (apply Forall_cons; split; [props; reflexivity|]). constructor.
Qed.

Lemma decode_encode_roundtrip_witness :
  exists (hash : string) (bs : list byte) (d : value),
    run Sample.env (Entry.encode
      (VObj (<["key" := VStr "02ab"]> (<["sig" := VStr "3045"]> (<["hash" := VStr "stale"]>
        (Entry.unsigned (VStr "log1") (VStr "hello") (VArr []) (VArr []) (VNum 1)))))) 
      VUndefined VUndefined) =
      Ok (VObj {[ "hash" := VStr hash; "bytes" := VBytes bs ]}) /\
    run Sample.env (Entry.decode (VBytes bs) VUndefined VUndefined) = Ok d /\
    prop d "hash" = VStr hash /\
    Forall (fun k => prop d k =
              prop (VObj (<["key" := VStr "02ab"]> (<["sig" := VStr "3045"]>
                (<["hash" := VStr "stale"]>
                (Entry.unsigned (VStr "log1") (VStr "hello") (VArr []) (VArr []) (VNum 1)))))) k)
           (Entry.entry_fields ++ Entry.signature_fields).
Proof.
  apply (decode_encode_roundtrip Sample.env _ VUndefined VUndefined VUndefined VUndefined);
    try reflexivity.
  - eexists. split; vm_compute; reflexivity.
  - exact sample_prints.
Defined.

(** C10.  [decode] does not validate what it decodes: whenever the codec
    decodes the bytes to an object that lacks one of [id], [next],
    [payload], [v], [clock], [refs], [decode] (without decryption
    functions) succeeds and returns that object with a [hash], and
    [isEntry] is false of it. *)
Theorem decode_does_not_validate (h : collaborators) (bytes : value) (decoded : block)
    (m : gmap string value) (k hash : string) :
  h _ (Block_decode bytes) = Ok decoded ->
  value_of decoded = VObj m ->
  k ∈ Entry.entry_fields -> m !! k = None ->
  h _ (CID_toString (cid decoded)) = Ok hash ->
  exists d : value,
    run h (Entry.decode bytes VUndefined VUndefined) = Ok d /\
    d = VObj (<["hash" := VStr hash]> m) /\
    prop d "hash" = VStr hash /\
    Entry.isEntry d = VBool false.
Proof.
  intros Hd Hv Hk Hm Hh. eexists. split; [|split; [reflexivity|split]].
  - rewrite (decode_run_plain h bytes VUndefined VUndefined decoded hash); auto.
    rewrite Hv. reflexivity.
  - apply prop_insert_eq.
  - rewrite isEntry_forallb. unfold logical_and. simpl truthy. cbv iota. f_equal.
    apply not_true_is_false. rewrite fields_defined_iff, Forall_forall.
    intros H. apply (H k Hk). rewrite prop_insert_ne.
    + unfold prop. rewrite Hm. reflexivity.
    + intros <-. apply list_elem_of_In in Hk. simpl in Hk. intuition discriminate.
Qed.

Lemma decode_does_not_validate_witness :
  exists d : value,
    run Sample.env
      (Entry.decode (VBytes [x07; x01; x01; x01; x02; x69; x64; x04; x01; x01; x78])
                    VUndefined VUndefined) = Ok d /\
    d = VObj (<["hash" := VStr "z3502835547"]> {[ "id" := VStr "x" ]}) /\
    prop d "hash" = VStr "z3502835547" /\
    Entry.isEntry d = VBool false.
Proof.
  eapply (decode_does_not_validate Sample.env _ _ {[ "id" := VStr "x" ]} "payload").
  - vm_compute. reflexivity.
  - vm_compute. reflexivity.
  - apply list_elem_of_In. simpl. auto.
  - reflexivity.
  - vm_compute. reflexivity.
Defined.

(** ** [encode] with payload encryption but no cached ciphertext *)



(** What becomes of that object is the codec's business.  The sample
    codec, which like dag-cbor has no encoding for [undefined], fails on
    it, and [encode] passes the failure on. *)
Example sample_codec_fails_on_undefined_payload :
  let m := <["key" := VStr "02ab"]> (<["sig" := VStr "3045"]>
             (Entry.unsigned (VStr "log1") (VStr "hello") (VArr []) (VArr []) (VNum 1))) in
  run Sample.env (Entry.encode (VObj m) VUndefined (VFun "seal"))
  = Err (Error "value cannot be encoded").
Proof. vm_compute. reflexivity. Qed.

(** ** [decode]: failures *)

(** C6.  With a [decryptEntryFn], a failure of any step of the entry
    decryption (decoding the wrapper, calling the function) makes
    [decode] throw "Could not decrypt entry"; with a [decryptPayloadFn],
    once the entry is decoded, a failure of any step of the payload
    decryption makes it throw "Could not decrypt payload".  [decode]
    returns an entry only when every step has succeeded, and then the
    entry is complete: with payload decryption it carries both the
    decoded plaintext as [payload] and the ciphertext as [_payload]. *)
Theorem decode_all_or_nothing (h : collaborators)
    (bytes decryptEntryFn decryptPayloadFn : value) :
  (truthy decryptEntryFn = true ->
   forall e : error,
     run h (Entry.decrypt_entry bytes decryptEntryFn) = Err e ->
     run h (Entry.decode bytes decryptEntryFn decryptPayloadFn)
     = Err (Error "Could not decrypt entry")) /\
  (truthy decryptPayloadFn = true ->
   forall (outer : value * option CID) (decodedEntry : block) (e : error),
     (if truthy decryptEntryFn
      then run h (Entry.decrypt_entry bytes decryptEntryFn) = Ok outer
      else outer = (bytes, None)) ->
     h _ (Block_decode outer.1) = Ok decodedEntry ->
     run h (Entry.decrypt_payload (value_of decodedEntry) decryptPayloadFn) = Err e ->
     run h (Entry.decode bytes decryptEntryFn decryptPayloadFn)
     = Err (Error "Could not decrypt payload")) /\
  (forall d : value,
     run h (Entry.decode bytes decryptEntryFn decryptPayloadFn) = Ok d ->
     exists (outer : value * option CID) (decodedEntry : block) (hash : string),
       (if truthy decryptEntryFn
        then run h (Entry.decrypt_entry bytes decryptEntryFn) = Ok outer
        else outer = (bytes, None)) /\
       h _ (Block_decode outer.1) = Ok decodedEntry /\
       h _ (CID_toString (default (cid decodedEntry) outer.2)) = Ok hash /\
       if truthy decryptPayloadFn
       then exists (plain : value) (decoded : block),
              run h (apply decryptPayloadFn [prop (value_of decodedEntry) "payload"])
              = Ok plain /\
              h _ (Block_decode plain) = Ok decoded /\
              d = VObj (<["hash" := VStr hash]>
                         (<["payload" := value_of decoded]>
                           (<["_payload" := prop (value_of decodedEntry) "payload"]>
                             (own_props (value_of decodedEntry)))))
       else d = VObj (<["hash" := VStr hash]> (own_props (value_of decodedEntry)))).
Proof.
  split; [|split].
  - intros Hfn e He. unfold Entry.decode. rewrite Hfn.
    rewrite run_bind, (run_try_err h _ e _ He). reflexivity.
  - intros Hfn outer decodedEntry e Ho Hd He. unfold Entry.decode. rewrite Hfn.
    rewrite run_bind.
    assert (Hrun : run h (if truthy decryptEntryFn
                          then try_catch (Entry.decrypt_entry bytes decryptEntryFn)
                                 (fun _ => Throw (Error "Could not decrypt entry"))
                          else Ret (bytes, None)) = Ok outer).
    { destruct (truthy decryptEntryFn); [apply run_try_ok; exact Ho|subst; reflexivity]. }
    rewrite Hrun, run_bind, run_await, Hd, run_bind, (run_try_err h _ e _ He).
    reflexivity.
  - intros d Hrun. apply decode_run in Hrun
      as (outer & decodedEntry & entry & hash & Ho & Hd & He & Hh & ->).
    exists outer, decodedEntry, hash.
    split; [exact Ho|]. split; [exact Hd|]. split; [exact Hh|].
    destruct (truthy decryptPayloadFn); [|subst; reflexivity].
    apply decrypt_payload_run in He as (_ & plain & decoded & Hp & Hd' & ->).
    exists plain, decoded. auto.
Qed.

Lemma decode_all_or_nothing_witness :
  run Sample.env (Entry.decode (VBytes [xff]) (VFun "open") VUndefined)
  = Err (Error "Could not decrypt entry") /\
  run Sample.env
    (Entry.decode (VBytes [x07; x01; x01; x01; x07; x70; x61; x79; x6c; x6f; x61; x64;
                           x04; x01; x02; x68; x69])
                  VUndefined (VFun "open"))
  = Err (Error "Could not decrypt payload").
Proof.
  split.
  - eapply (decode_all_or_nothing Sample.env (VBytes [xff]) (VFun "open") VUndefined);
      [reflexivity|].
    vm_compute. reflexivity.
  - eapply (decode_all_or_nothing Sample.env _ VUndefined (VFun "open")); [reflexivity|..].
    + reflexivity.
    + vm_compute. reflexivity.
    + vm_compute. reflexivity.
Defined.

(** ** Payload encryption *)

Lemma persisted_sealed (m : gmap string value) (encryptPayloadFn : value) :
  truthy encryptPayloadFn = true ->
  Entry.persisted (VObj m) encryptPayloadFn =
  delete "hash" (delete "_payload" (<["payload" := prop (VObj m) "_payload"]> m)).
Proof. intros H. unfold Entry.persisted. rewrite H. reflexivity. Qed.

Lemma sign_off_sealed (identity payload encryptPayloadFn ciphertext signature : value)
    (m : gmap string value) :
  truthy encryptPayloadFn = true ->
  Entry.sign_off identity payload encryptPayloadFn ciphertext signature m =
  <["_payload" := ciphertext]> (<["payload" := payload]> (<["sig" := signature]>
    (<["identity" := prop identity "hash"]> (<["key" := prop identity "publicKey"]> m)))).
Proof. intros H. unfold Entry.sign_off. rewrite H. reflexivity. Qed.

Lemma snapshot_object (m : gmap string value) :
  Entry.snapshot (VObj m) =
  VObj {[ "id" := prop (VObj m) "id";
          "payload" := logical_or (prop (VObj m) "_payload") (prop (VObj m) "payload");
          "next" := prop (VObj m) "next";
          "refs" := prop (VObj m) "refs";
          "clock" := prop (VObj m) "clock";
          "v" := prop (VObj m) "v" ]}.
Proof. reflexivity. Qed.

Lemma isEntry_object (m : gmap string value) :
  Entry.isEntry (VObj m) =
  VBool (defined (prop (VObj m) "id") && defined (prop (VObj m) "next") &&
         defined (prop (VObj m) "payload") && defined (prop (VObj m) "v") &&
         defined (prop (VObj m) "clock") && defined (prop (VObj m) "refs")).
Proof.
  unfold Entry.isEntry, logical_and. change (truthy (VObj m)) with true. cbv iota.
  repeat match goal with |- context [defined ?x] => destruct (defined x) end; reflexivity.
Qed.

(** The entry that [create] returns with payload encryption. *)
Lemma created_sealed_entry (identity id payload encryptPayloadFn ciphertext signature
    next refs c : value) :
  let e := VObj (Entry.sign_off identity payload encryptPayloadFn ciphertext signature
                   (Entry.unsigned id (logical_or ciphertext payload) next refs c)) in
  truthy encryptPayloadFn = true -> truthy ciphertext = true ->
  nullish id = false -> nullish payload = false -> isArray next = true ->
  refs <> VUndefined -> defined c = true ->
  Entry.isEntry e = VBool true /\
  prop e "key" = prop identity "publicKey" /\
  prop e "sig" = signature /\
  prop e "payload" = payload /\
  prop e "_payload" = ciphertext /\
  prop e "clock" = c /\
  Entry.snapshot e = VObj (Entry.unsigned id ciphertext next refs c).
Proof.
  intros e Henc Hct Hid Hp Hn Hr Hc. subst e.
  rewrite (sign_off_sealed _ _ _ _ _ _ Henc), snapshot_object, isEntry_object.
  unfold Entry.unsigned, logical_or. rewrite Hct. props. rewrite Hct.
  rewrite (not_nullish_defined id), (not_nullish_defined payload), Hc by assumption.
  apply defined_iff in Hr. rewrite Hr.
  destruct next; try discriminate. repeat split.
Qed.

(** C2.  For every entry [e] that [create] returns with an
    [encryptPayloadFn], when [decryptPayloadFn] undoes it, the identity
    system accepts the signatures of its signer, and the codec
    round-trips the payload and the persisted object (the entry having a
    key, a signature, a clock and a ciphertext): [encode] with the
    [encryptPayloadFn] and then [decode] with the [decryptPayloadFn]
    return an entry whose [payload] is the original plaintext, and
    [verify] returns [true] on the created and on the decoded entry,
    because for both the snapshot that is checked has the cached
    ciphertext [_payload] as its payload. *)
Theorem payload_encryption_roundtrip (h : collaborators)
    (identity identities id payload encryptPayloadFn decryptPayloadFn clock next refs e
     : value) :
  run h (Entry.create identity id payload encryptPayloadFn clock next refs) = Ok e ->
  Contract.inverse_cipher h encryptPayloadFn decryptPayloadFn ->
  Contract.accepts_own_signatures h identity identities ->
  Contract.prints h ->
  Contract.roundtrips h payload ->
  Contract.roundtrips h (VObj (Entry.persisted e encryptPayloadFn)) ->
  truthy (prop e "key") = true ->
  truthy (prop e "sig") = true ->
  defined (prop e "clock") = true ->
  truthy (prop e "_payload") = true ->
  exists (hash : string) (bs : list byte) (d : value),
    run h (Entry.encode e VNull encryptPayloadFn) =
      Ok (VObj {[ "hash" := VStr hash; "bytes" := VBytes bs ]}) /\
    run h (Entry.decode (VBytes bs) VNull decryptPayloadFn) = Ok d /\
    prop e "payload" = payload /\
    prop d "payload" = payload /\
    prop d "_payload" = prop e "_payload" /\
    prop (Entry.snapshot e) "payload" = prop e "_payload" /\
    Entry.snapshot d = Entry.snapshot e /\
    run h (Entry.verify identities e) = Ok (VBool true) /\
    run h (Entry.verify identities d) = Ok (VBool true).
Proof.
  intros Hcreate (f & g & -> & -> & Hinv) (sign & vf & Hsign & Hvf & Hacc) Hprints
         (pb & Hpb & Hpb') (wb & Hwb & Hwb') Hkey Hsig Hclock Hct.
  apply create_run in Hcreate
    as (_ & Hid & Hp & Hn & c & ct & signed & sig & _ & Hep & Hs & Hsg & ->).
  set (next' := Entry.param next (VArr [])) in *.
  set (refs' := Entry.param refs (VArr [])) in *.
  assert (Hrefs : refs' <> VUndefined) by (subst refs'; destruct refs; discriminate).
  (* the ciphertext is what the function made of the encoded payload *)
  unfold Entry.encrypt_payload in Hep. simpl truthy in Hep. cbv iota in Hep.
  apply run_ok_bind in Hep as (pb0 & Hpb0 & Hep).
  rewrite run_await, Hpb in Hpb0. injection Hpb0 as <-.
  rewrite run_apply in Hep.
  (* the fields of the created entry *)
  set (m := Entry.sign_off identity payload (VFun f) ct sig
              (Entry.unsigned id (logical_or ct payload) next' refs' c)) in *.
  assert (Hm : m = Entry.sign_off identity payload (VFun f) ct sig
                     (Entry.unsigned id (logical_or ct payload) next' refs' c)) by reflexivity.
  rewrite sign_off_sealed in Hm by reflexivity. unfold Entry.unsigned in Hm.
  assert (Hct' : truthy ct = true) by (revert Hct; rewrite Hm; props; auto).
  assert (Hc : defined c = true) by (revert Hclock; rewrite Hm; props; auto).
  destruct (created_sealed_entry identity id payload (VFun f) ct sig next' refs' c
              eq_refl Hct' Hid Hp Hn Hrefs Hc)
    as (He & Hk & Hsi & Hpay & Hcache & _ & Hsnap).
  fold m in He, Hk, Hsi, Hpay, Hcache, Hsnap.
  unfold logical_or in Hs. rewrite Hct' in Hs.
  rewrite Hsign, run_apply in Hsg. apply Hacc in Hsg.
  assert (Hve : run h (Entry.verify identities (VObj m)) = Ok (VBool true)).
  { rewrite (verify_run h identities (VObj m) vf signed He Hkey Hsig Hvf);
      [|rewrite Hsnap; exact Hs].
    rewrite Hsi, Hk. exact Hsg. }
  (* encode, then decode *)
  destruct (Hprints (cid wb)) as [hash Hhash].
  rewrite persisted_sealed in Hwb, Hwb' by reflexivity. rewrite Hcache in Hwb, Hwb'.
  set (w := delete "hash" (delete "_payload" (<["payload" := ct]> m))) in *.
  set (d := <["hash" := VStr hash]> (<["payload" := payload]> (<["_payload" := ct]> w))).
  assert (Hdecode : run h (Entry.decode (VBytes (bytes wb)) VNull (VFun g)) = Ok (VObj d)).
  { apply decode_run.
    exists (VBytes (bytes wb), None), (Block (cid wb) (bytes wb) (VObj w)),
           (VObj (<["payload" := payload]> (<["_payload" := ct]> w))), hash.
    split; [reflexivity|]. split; [exact Hwb'|]. split; [|split; [exact Hhash|reflexivity]].
    apply decrypt_payload_run. split; [reflexivity|].
    exists (VBytes (bytes pb)), (Block (cid pb) (bytes pb) payload).
    assert (Hwp : prop (VObj w) "payload" = ct) by (subst w; props; reflexivity).
    change (prop (value_of (Block (cid wb) (bytes wb) (VObj w))) "payload")
      with (prop (VObj w) "payload").
    rewrite Hwp, run_apply. split; [apply Hinv; exact Hep|].
    split; [exact Hpb'|reflexivity]. }
  assert (Hdp : prop (VObj d) "payload" = payload /\ prop (VObj d) "_payload" = ct)
    by (subst d; split; props; reflexivity).
  assert (Hdf : forall k, k <> "payload" -> k <> "_payload" -> k <> "hash" ->
                          prop (VObj d) k = prop (VObj m) k).
  { intros k H1 H2 H3. subst d w.
    rewrite !prop_insert_ne, !prop_delete_ne, prop_insert_ne by congruence.
    reflexivity. }
  assert (Hsnapd : Entry.snapshot (VObj d) = Entry.snapshot (VObj m)).
  { rewrite !snapshot_object. destruct Hdp as [-> ->]. rewrite Hcache, Hpay.
    rewrite !Hdf by discriminate. unfold logical_or. rewrite Hct'. reflexivity. }
  assert (Hde : Entry.isEntry (VObj d) = VBool true).
  { rewrite isEntry_object in *. destruct Hdp as [-> _]. rewrite Hpay in He.
    rewrite !Hdf by discriminate. exact He. }
  exists hash, (bytes wb), (VObj d).
  split; [apply encode_run_plain; [reflexivity| |exact Hhash];
          rewrite persisted_sealed, Hcache by reflexivity; exact Hwb|].
  split; [exact Hdecode|].
  split; [exact Hpay|].
  split; [apply Hdp|].
  split; [rewrite Hcache; apply Hdp|].
  split; [rewrite Hsnap, Hcache; unfold Entry.unsigned; props; reflexivity|].
  split; [exact Hsnapd|]. split; [exact Hve|].
  rewrite (verify_run h identities (VObj d) vf signed Hde).
  - rewrite !Hdf by discriminate. rewrite Hsi, Hk. exact Hsg.
  - rewrite Hdf by discriminate. exact Hkey.
  - rewrite Hdf by discriminate. exact Hsig.
  - exact Hvf.
  - rewrite Hsnapd, Hsnap. exact Hs.
Qed.

Lemma xor_bytes_involutive (b : list byte) : Sample.xor_bytes (Sample.xor_bytes b) = b.
Proof.
  unfold Sample.xor_bytes. rewrite map_map.
  induction b as [|x b IH]; simpl; [reflexivity|].
  rewrite IH. f_equal. destruct x; reflexivity.
Qed.

Lemma sample_inverse_cipher :
  Contract.inverse_cipher Sample.env (VFun "seal") (VFun "open").
Proof.
  exists "seal", "open". split; [reflexivity|split; [reflexivity|]].
  intros bs c H.
  change (Sample.run_fn "seal" [VBytes bs] = Ok c) in H.
  change (Sample.run_fn "open" [c] = Ok (VBytes bs)).
  unfold Sample.run_fn in *. simpl String.eqb in *. simpl orb in *. cbv iota in *.
  injection H as <-. rewrite xor_bytes_involutive. reflexivity.
Qed.

Lemma payload_encryption_roundtrip_witness :
  exists e : value,
    run Sample.env
      (Entry.create Sample.identityA (VStr "log1") (VStr "hello") (VFun "seal")
                    VUndefined VUndefined VUndefined) = Ok e /\
    exists (hash : string) (bs : list byte) (d : value),
      run Sample.env (Entry.encode e VNull (VFun "seal")) =
        Ok (VObj {[ "hash" := VStr hash; "bytes" := VBytes bs ]}) /\
      run Sample.env (Entry.decode (VBytes bs) VNull (VFun "open")) = Ok d /\
      prop e "payload" = VStr "hello" /\
      prop d "payload" = VStr "hello" /\
      prop d "_payload" = prop e "_payload" /\
      prop (Entry.snapshot e) "payload" = prop e "_payload" /\
      Entry.snapshot d = Entry.snapshot e /\
      run Sample.env (Entry.verify Sample.identities e) = Ok (VBool true) /\
      run Sample.env (Entry.verify Sample.identities d) = Ok (VBool true).
Proof.
  eexists. split; [vm_compute; reflexivity|].
  eapply (payload_encryption_roundtrip Sample.env Sample.identityA Sample.identities
            (VStr "log1") (VStr "hello") (VFun "seal") (VFun "open")
            VUndefined VUndefined VUndefined).
  - vm_compute. reflexivity.
  - exact sample_inverse_cipher.
  - exact sample_accepts_own_signatures.
  - exact sample_prints.
  - eexists. split; vm_compute; reflexivity.
  - eexists. split; vm_compute; reflexivity.
  - vm_compute. reflexivity.
  - vm_compute. reflexivity.
  - vm_compute. reflexivity.
  - vm_compute. reflexivity.
Defined.

(** * Further properties of the entry module *)

(** ** Calls of a sequence *)

Lemma calls_bind {A B} (h : collaborators) (p : prog A) (f : A -> prog B) :
  calls h (x <- p;; f x) =
  calls h p ++ match run h p with Ok a => calls h (f a) | Err _ => [] end.
Proof.
  induction p as [a|e|X c k IH]; simpl; [reflexivity|reflexivity|].
  rewrite IH. reflexivity.
Qed.

Lemma calls_await {X} (h : collaborators) (c : call X) : calls h (await c) = [Event c].
Proof. simpl. destruct (h X c); reflexivity. Qed.

(** ** [verify] reads nine fields *)

(** The fields of an entry that [verify] reads. *)
Lemma verify_agree (identities : value) (m m' : gmap string value) :
  (forall k, k ∈ Entry.entry_fields ++ ["_payload"; "key"; "sig"] ->
             prop (VObj m) k = prop (VObj m') k) ->
  Entry.verify identities (VObj m) = Entry.verify identities (VObj m').
Proof.
  intros H. unfold Entry.verify.
  rewrite !isEntry_object, !snapshot_object.
  rewrite !(H "id"), !(H "next"), !(H "payload"), !(H "v"), !(H "clock"),
          !(H "refs"), !(H "_payload"), !(H "key"), !(H "sig")
    by (apply list_elem_of_In; simpl; tauto).
  reflexivity.
Qed.

(** X1.  [verify] depends on an entry only through [id], [next],
    [payload], [v], [clock], [refs], [_payload], [key] and [sig]: on two
    entries that agree on these it is the same program, whatever their
    other fields ([identity], [hash], ...) are.  In particular the
    [identity] field is never checked against the key, and the [hash]
    that [decode] adds changes nothing. *)
Theorem verify_reads_only_signed_fields_key_sig (identities : value)
    (m m' : gmap string value) :
  (forall k, k ∈ Entry.entry_fields ++ ["_payload"; "key"; "sig"] ->
             prop (VObj m) k = prop (VObj m') k) ->
  Entry.verify identities (VObj m) = Entry.verify identities (VObj m') /\
  (forall h, run h (Entry.verify identities (VObj m))
             = run h (Entry.verify identities (VObj m'))) /\
  (forall x y : value,
     Entry.verify identities (VObj (<["identity" := x]> (<["hash" := y]> m)))
     = Entry.verify identities (VObj m)).
Proof.
  intros H. split; [apply verify_agree, H|]. split.
  - intros h. rewrite (verify_agree identities m m' H). reflexivity.
  - intros x y. apply verify_agree. intros k Hk.
    apply list_elem_of_In in Hk. simpl in Hk.
    rewrite !prop_insert_ne; [reflexivity| |]; intros <-; intuition discriminate.
Qed.

Lemma verify_reads_only_signed_fields_key_sig_witness :
  let m := <["key" := VStr "02ab"]> (<["sig" := VStr "3045"]>
             (Entry.unsigned (VStr "log1") (VStr "hello") (VArr []) (VArr []) (VNum 1))) in
  Entry.verify Sample.identities (VObj m)
  = Entry.verify Sample.identities (VObj (<["hash" := VStr "zdpuAkx"]> m)).
Proof.
  intros m.
  refine (proj1 (verify_reads_only_signed_fields_key_sig Sample.identities m
                   (<["hash" := VStr "zdpuAkx"]> m) _)).
  intros k Hk. apply list_elem_of_In in Hk. simpl in Hk.
  rewrite prop_insert_ne; [reflexivity|]. intros <-. intuition discriminate.
Defined.

(** ** [isEqual] as a relation *)





(** ** What [create] returns *)

Lemma sign_off_plain (identity payload encryptPayloadFn ciphertext signature : value)
    (m : gmap string value) :
  truthy encryptPayloadFn = false ->
  Entry.sign_off identity payload encryptPayloadFn ciphertext signature m =
  <["payload" := payload]> (<["sig" := signature]>
    (<["identity" := prop identity "hash"]> (<["key" := prop identity "publicKey"]> m))).
Proof. intros H. unfold Entry.sign_off. rewrite H. reflexivity. Qed.

Lemma encrypt_payload_off (h : collaborators) (payload encryptPayloadFn ciphertext : value) :
  truthy encryptPayloadFn = false ->
  run h (Entry.encrypt_payload payload encryptPayloadFn) = Ok ciphertext ->
  ciphertext = VUndefined.
Proof. intros H. unfold Entry.encrypt_payload. rewrite H. simpl. congruence. Qed.

(** The fields of a created entry, with or without payload encryption;
    without it the ciphertext is [undefined]. *)
Lemma created_entry (identity id payload encryptPayloadFn ciphertext signature
    next refs c : value) :
  let e := VObj (Entry.sign_off identity payload encryptPayloadFn ciphertext signature
                   (Entry.unsigned id (logical_or ciphertext payload) next refs c)) in
  (truthy encryptPayloadFn = false -> ciphertext = VUndefined) ->
  prop e "id" = id /\ prop e "payload" = payload /\ prop e "next" = next /\
  prop e "refs" = refs /\ prop e "clock" = c /\ prop e "v" = VNum 2 /\
  prop e "key" = prop identity "publicKey" /\
  prop e "identity" = prop identity "hash" /\
  prop e "sig" = signature /\ prop e "hash" = VUndefined /\
  prop e "_payload" = (if truthy encryptPayloadFn then ciphertext else VUndefined) /\
  Entry.snapshot e = VObj (Entry.unsigned id (logical_or ciphertext payload) next refs c).
Proof.
  intros e Hoff. subst e. destruct (truthy encryptPayloadFn) eqn:Hfn.
  - rewrite sign_off_sealed, snapshot_object by exact Hfn.
    unfold Entry.unsigned. props. repeat split.
  - rewrite sign_off_plain, snapshot_object by exact Hfn.
    rewrite (Hoff eq_refl). unfold Entry.unsigned, logical_or. simpl truthy. cbv iota.
    props. repeat split.
Qed.

(** X3.  Whenever [create] returns, the entry has the given [id] and the
    plaintext [payload] (also with payload encryption), [next] and [refs]
    as given or the empty array when omitted, [v] 2, the public key and
    the hash of the identity as [key] and [identity], and no [hash];
    [_payload] is there only with an [encryptPayloadFn]; a truthy [clock]
    argument is kept; and [isEntry] is true of it exactly when its clock
    is defined. *)
Theorem create_returns_entry (h : collaborators)
    (identity id payload encryptPayloadFn clock next refs e : value) :
  run h (Entry.create identity id payload encryptPayloadFn clock next refs) = Ok e ->
  prop e "id" = id /\ prop e "payload" = payload /\
  prop e "next" = Entry.param next (VArr []) /\ isArray (prop e "next") = true /\
  prop e "refs" = Entry.param refs (VArr []) /\
  prop e "v" = VNum 2 /\
  prop e "key" = prop identity "publicKey" /\
  prop e "identity" = prop identity "hash" /\
  prop e "hash" = VUndefined /\
  (truthy encryptPayloadFn = false -> prop e "_payload" = VUndefined) /\
  (truthy (Entry.param clock VNull) = true -> prop e "clock" = Entry.param clock VNull) /\
  Entry.isEntry e = VBool (defined (prop e "clock")).
Proof.
  intros Hrun. apply create_run in Hrun
    as (_ & Hid & Hp & Hn & c & ct & signed & sig & Hc & Hep & _ & _ & ->).
  destruct (created_entry identity id payload encryptPayloadFn ct sig
              (Entry.param next (VArr [])) (Entry.param refs (VArr [])) c)
    as (E1 & E2 & E3 & E4 & E5 & E6 & E7 & E8 & E9 & E10 & E11 & _).
  { intros Hoff. exact (encrypt_payload_off h payload _ ct Hoff Hep). }
  repeat split; try assumption.
  - rewrite E3. exact Hn.
  - intros Hoff. rewrite E11, Hoff. reflexivity.
  - intros Hclock. rewrite E5. unfold Entry.clock_or_new in Hc. rewrite Hclock in Hc.
    simpl in Hc. congruence.
  - rewrite isEntry_forallb. unfold logical_and, Entry.entry_fields, forallb.
    change (truthy (VObj ?m)) with true. cbv iota.
    rewrite E1, E2, E3, E4, E6.
    rewrite (not_nullish_defined id Hid), (not_nullish_defined payload Hp).
    destruct (Entry.param next (VArr [])); try discriminate.
    assert (Hr : defined (Entry.param refs (VArr [])) = true) by (destruct refs; reflexivity).
    rewrite Hr. simpl. rewrite andb_true_r. reflexivity.
Qed.

Lemma create_returns_entry_witness :
  exists e : value,
    run Sample.env
      (Entry.create Sample.identityA (VStr "log1") (VStr "hello") (VFun "seal")
                    VUndefined VUndefined VNull) = Ok e /\
    (prop e "id" = VStr "log1" /\ prop e "payload" = VStr "hello" /\
     prop e "next" = Entry.param VUndefined (VArr []) /\ isArray (prop e "next") = true /\
     prop e "refs" = Entry.param VNull (VArr []) /\
     prop e "v" = VNum 2 /\
     prop e "key" = prop Sample.identityA "publicKey" /\
     prop e "identity" = prop Sample.identityA "hash" /\
     prop e "hash" = VUndefined /\
     (truthy (VFun "seal") = false -> prop e "_payload" = VUndefined) /\
     (truthy (Entry.param VUndefined VNull) = true ->
      prop e "clock" = Entry.param VUndefined VNull) /\
     Entry.isEntry e = VBool (defined (prop e "clock"))).
Proof.
  eexists. split; [vm_compute; reflexivity|].
  apply (create_returns_entry Sample.env Sample.identityA (VStr "log1") (VStr "hello")
           (VFun "seal") VUndefined VUndefined VNull).
  vm_compute. reflexivity.
Defined.

(** X4.  The signature of a created entry is what the identity's signer
    returned for the bytes of the codec on exactly the snapshot that
    [verify] rebuilds from that entry, with or without payload
    encryption and whatever the ciphertext is (a falsy ciphertext makes
    both sides fall back to the plaintext). *)
Theorem create_signs_the_snapshot (h : collaborators)
    (identity id payload encryptPayloadFn clock next refs e : value) :
  run h (Entry.create identity id payload encryptPayloadFn clock next refs) = Ok e ->
  exists signed : block,
    h _ (Block_encode (Entry.snapshot e)) = Ok signed /\
    run h (apply (prop identity "sign") [identity; VBytes (bytes signed)])
    = Ok (prop e "sig").
Proof.
  intros Hrun. apply create_run in Hrun
    as (_ & Hid & Hp & Hn & c & ct & signed & sig & Hc & Hep & Hs & Hsig & ->).
  destruct (created_entry identity id payload encryptPayloadFn ct sig
              (Entry.param next (VArr [])) (Entry.param refs (VArr [])) c)
    as (_ & _ & _ & _ & _ & _ & _ & _ & E9 & _ & _ & Hsnap).
  { intros Hoff. exact (encrypt_payload_off h payload _ ct Hoff Hep). }
  exists signed. rewrite Hsnap, E9. auto.
Qed.

Lemma create_signs_the_snapshot_witness :
  exists (e : value) (signed : block),
    run Sample.env
      (Entry.create Sample.identityA (VStr "log1") (VStr "hello") (VFun "seal")
                    VUndefined VUndefined VUndefined) = Ok e /\
    Sample.env _ (Block_encode (Entry.snapshot e)) = Ok signed /\
    run Sample.env (apply (prop Sample.identityA "sign")
                          [Sample.identityA; VBytes (bytes signed)])
    = Ok (prop e "sig").
Proof.
  eexists. 
  edestruct (create_signs_the_snapshot Sample.env Sample.identityA (VStr "log1")
               (VStr "hello") (VFun "seal") VUndefined VUndefined VUndefined)
    as (signed & H1 & H2); [vm_compute; reflexivity|].
  exists signed. split; [vm_compute; reflexivity|]. split; [exact H1|exact H2].
Defined.

Lemma created_is_entry (identity id payload encryptPayloadFn ciphertext signature
    next refs c : value) :
  let e := VObj (Entry.sign_off identity payload encryptPayloadFn ciphertext signature
                   (Entry.unsigned id (logical_or ciphertext payload) next refs c)) in
  (truthy encryptPayloadFn = false -> ciphertext = VUndefined) ->
  nullish id = false -> nullish payload = false -> isArray next = true ->
  refs <> VUndefined -> defined c = true ->
  Entry.isEntry e = VBool true.
Proof.
  intros e Hoff Hid Hp Hn Hr Hc.
  destruct (created_entry identity id payload encryptPayloadFn ciphertext signature
              next refs c Hoff) as (E1 & E2 & E3 & E4 & E5 & E6 & _).
  fold e in E1, E2, E3, E4, E5, E6. subst e.
  rewrite isEntry_forallb. unfold logical_and, Entry.entry_fields, forallb.
  change (truthy (VObj ?m)) with true. cbv iota.
  rewrite E1, E2, E3, E4, E5, E6, Hc.
  rewrite (not_nullish_defined id Hid), (not_nullish_defined payload Hp).
  apply defined_iff in Hr. rewrite Hr. destruct next; try discriminate. reflexivity.
Qed.

(** X5.  [verify] returns [true] on every entry that [create] returns,
    with or without payload encryption and whatever the
    [encryptPayloadFn] returned, as soon as the entry has a truthy key
    and signature and a defined clock and the identity system accepts
    the signatures of the identity's signer. *)
Theorem verify_created_entry (h : collaborators)
    (identity identities id payload encryptPayloadFn clock next refs e : value) :
  run h (Entry.create identity id payload encryptPayloadFn clock next refs) = Ok e ->
  truthy (prop e "key") = true ->
  truthy (prop e "sig") = true ->
  defined (prop e "clock") = true ->
  Contract.accepts_own_signatures h identity identities ->
  run h (Entry.verify identities e) = Ok (VBool true).
Proof.
  intros Hrun Hkey Hsig Hclock (sign & vf & Hsign & Hvf & Hacc).
  apply create_run in Hrun
    as (_ & Hid & Hp & Hn & c & ct & signed & sig & Hc & Hep & Hs & Hsg & ->).
  assert (Hoff : truthy encryptPayloadFn = false -> ct = VUndefined)
    by (intros Hoff; exact (encrypt_payload_off h payload _ ct Hoff Hep)).
  assert (Hrefs : Entry.param refs (VArr []) <> VUndefined) by (destruct refs; discriminate).
  destruct (created_entry identity id payload encryptPayloadFn ct sig
              (Entry.param next (VArr [])) (Entry.param refs (VArr [])) c Hoff)
    as (_ & _ & _ & _ & E5 & _ & E7 & _ & E9 & _ & _ & Hsnap).
  rewrite E5 in Hclock.
  pose proof (created_is_entry identity id payload encryptPayloadFn ct sig
                (Entry.param next (VArr [])) (Entry.param refs (VArr [])) c
                Hoff Hid Hp Hn Hrefs Hclock) as He.
  cbv zeta in He.
  rewrite (verify_run h identities _ vf signed He Hkey Hsig Hvf);
    [|rewrite Hsnap; exact Hs].
  rewrite E7, E9. apply Hacc. rewrite Hsign, run_apply in Hsg. exact Hsg.
Qed.

Lemma verify_created_entry_witness :
  exists e : value,
    run Sample.env
      (Entry.create Sample.identityA (VStr "log1") (VStr "hello") (VFun "seal")
                    (VNum 7) (VArr [VStr "zdpuAkx"]) VUndefined) = Ok e /\
    run Sample.env (Entry.verify Sample.identities e) = Ok (VBool true).
Proof.
  eexists. split; [vm_compute; reflexivity|].
  eapply (verify_created_entry Sample.env Sample.identityA Sample.identities
            (VStr "log1") (VStr "hello") (VFun "seal") (VNum 7) (VArr [VStr "zdpuAkx"])
            VUndefined).
  - vm_compute. reflexivity.
  - vm_compute. reflexivity.
  - vm_compute. reflexivity.
  - vm_compute. reflexivity.
  - exact sample_accepts_own_signatures.
Defined.

(** ** The collaborator calls of [create] *)

(** X6.  A run of [create] that returns makes these collaborator calls
    and no other, in this order: the clock provider only when no truthy
    clock was given; with an [encryptPayloadFn], the codec on the payload
    and the function on the bytes; then the codec on the snapshot of the
    entry; and last, once, the signer on the bytes of that snapshot. *)
Theorem create_calls (h : collaborators)
    (identity id payload encryptPayloadFn clock next refs e : value) :
  run h (Entry.create identity id payload encryptPayloadFn clock next refs) = Ok e ->
  exists (sign : string) (signed : block),
    prop identity "sign" = VFun sign /\
    h _ (Block_encode (Entry.snapshot e)) = Ok signed /\
    calls h (Entry.create identity id payload encryptPayloadFn clock next refs) =
      (if truthy (Entry.param clock VNull) then []
       else [Event (Clock (prop identity "publicKey"))]) ++
      (if truthy encryptPayloadFn then
         match encryptPayloadFn, h _ (Block_encode payload) with
         | VFun f, Ok encoded =>
             [Event (Block_encode payload); Event (Apply f [VBytes (bytes encoded)])]
         | _, _ => []
         end
       else []) ++
      [Event (Block_encode (Entry.snapshot e));
       Event (Apply sign [identity; VBytes (bytes signed)])].
Proof.
  intros Hrun. pose proof Hrun as Hrun'. apply create_run in Hrun'
    as (Hidn & Hid & Hp & Hn & c & ct & signed & sig & Hc & Hep & Hs & Hsg & ->).
  assert (Hoff : truthy encryptPayloadFn = false -> ct = VUndefined)
    by (intros Hoff; exact (encrypt_payload_off h payload _ ct Hoff Hep)).
  destruct (created_entry identity id payload encryptPayloadFn ct sig
              (Entry.param next (VArr [])) (Entry.param refs (VArr [])) c Hoff)
    as (_ & _ & _ & _ & _ & _ & _ & _ & _ & _ & _ & Hsnap).
  rewrite Hsnap.
  destruct (prop identity "sign") as [| | | | | | | |sign] eqn:Hsign;
    try (simpl in Hsg; discriminate).
  exists sign, signed. split; [reflexivity|]. split; [exact Hs|].
  unfold Entry.create.
  assert (Hnext : forall v, isArray v = true -> nullish v || negb (isArray v) = false)
    by (intros []; simpl; congruence).
  rewrite (Hnext _ Hn), Hidn, Hid, Hp.
  rewrite calls_bind, Hc, calls_bind, Hep, calls_bind, run_await, calls_await, Hs.
  rewrite calls_bind, Hsign, Hsg. unfold apply. rewrite calls_await. simpl calls.
  rewrite app_nil_r.
  f_equal; [|f_equal].
  - unfold Entry.clock_or_new. destruct (truthy (Entry.param clock VNull)); [reflexivity|].
    apply calls_await.
  - unfold Entry.encrypt_payload in *. destruct (truthy encryptPayloadFn); [|reflexivity].
    rewrite calls_bind, calls_await, run_await.
    apply run_ok_bind in Hep as (encoded & Hpb & Hf). rewrite run_await in Hpb.
    rewrite Hpb. destruct encryptPayloadFn; try (simpl in Hf; discriminate).
    unfold apply. rewrite calls_await. reflexivity.
Qed.

Lemma create_calls_witness :
  exists signed : block,
    calls Sample.env
      (Entry.create Sample.identityA (VStr "log1") (VStr "hello") VUndefined
                    (VNum 7) VUndefined VUndefined) =
    [Event (Block_encode (VObj (Entry.unsigned (VStr "log1") (VStr "hello")
                                  (VArr []) (VArr []) (VNum 7))));
     Event (Apply "sign" [Sample.identityA; VBytes (bytes signed)])].
Proof.
  edestruct (create_calls Sample.env Sample.identityA (VStr "log1") (VStr "hello")
               VUndefined (VNum 7) VUndefined VUndefined)
    as (sign & signed & Hsign & Hs & Hcalls); [vm_compute; reflexivity|].
  exists signed. rewrite Hcalls. injection Hsign as <-.
  reflexivity.
Defined.

(** ** What [encode] hands to the codec *)

Ltac map_lookups :=
  apply map_eq; intros ?k;
  repeat first [rewrite lookup_delete | rewrite lookup_insert];
  repeat case_decide; subst; try reflexivity; try congruence.

Lemma persisted_object (m : gmap string value) (encryptPayloadFn : value) :
  Entry.persisted (VObj m) encryptPayloadFn =
  delete "hash" (delete "_payload"
    (if truthy encryptPayloadFn then <["payload" := prop (VObj m) "_payload"]> m else m)).
Proof. unfold Entry.persisted. destruct (truthy encryptPayloadFn); reflexivity. Qed.

Lemma encode_persisted (entry entry' encryptEntryFn encryptPayloadFn : value) :
  Entry.persisted entry encryptPayloadFn = Entry.persisted entry' encryptPayloadFn ->
  Entry.encode entry encryptEntryFn encryptPayloadFn
  = Entry.encode entry' encryptEntryFn encryptPayloadFn.
Proof. intros H. unfold Entry.encode. rewrite H. reflexivity. Qed.

(** X7.  The first step of [encode] is the codec call on an object that
    has neither a [_payload] nor a [hash] field, and [encode] does not
    depend on the [hash] of the entry, nor on the payload variant it
    does not persist: the [_payload] cache without an
    [encryptPayloadFn], the plaintext [payload] with one. *)
Theorem encode_ignores_derived_fields (m : gmap string value)
    (encryptEntryFn encryptPayloadFn x : value) :
  (exists k, Entry.encode (VObj m) encryptEntryFn encryptPayloadFn
             = Call (Block_encode (VObj (Entry.persisted (VObj m) encryptPayloadFn))) k) /\
  Entry.persisted (VObj m) encryptPayloadFn !! "_payload" = None /\
  Entry.persisted (VObj m) encryptPayloadFn !! "hash" = None /\
  Entry.encode (VObj (<["hash" := x]> m)) encryptEntryFn encryptPayloadFn
  = Entry.encode (VObj m) encryptEntryFn encryptPayloadFn /\
  (truthy encryptPayloadFn = false ->
   Entry.encode (VObj (<["_payload" := x]> m)) encryptEntryFn encryptPayloadFn
   = Entry.encode (VObj m) encryptEntryFn encryptPayloadFn) /\
  (truthy encryptPayloadFn = true ->
   Entry.encode (VObj (<["payload" := x]> m)) encryptEntryFn encryptPayloadFn
   = Entry.encode (VObj m) encryptEntryFn encryptPayloadFn).
Proof.
  split; [eexists; reflexivity|].
  rewrite !persisted_object.
  split; [rewrite lookup_delete_ne, lookup_delete_eq by discriminate; reflexivity|].
  split; [apply lookup_delete_eq|].
  split; [|split].
  - apply encode_persisted. rewrite !persisted_object.
    rewrite prop_insert_ne by discriminate.
    destruct (truthy encryptPayloadFn); map_lookups.
  - intros Hfn. apply encode_persisted. rewrite !persisted_object, Hfn. map_lookups.
  - intros Hfn. apply encode_persisted. rewrite !persisted_object, Hfn.
    rewrite prop_insert_ne by discriminate. map_lookups.
Qed.

Lemma encode_ignores_derived_fields_witness :
  let m := <["_payload" := VBytes [x01; x02]]> (<["key" := VStr "02ab"]>
             (<["sig" := VStr "3045"]>
             (Entry.unsigned (VStr "log1") (VStr "hello") (VArr []) (VArr []) (VNum 1)))) in
  Entry.encode (VObj (<["payload" := VStr "other"]> m)) VUndefined (VFun "seal")
  = Entry.encode (VObj m) VUndefined (VFun "seal").
Proof.
  intros m.
  apply (encode_ignores_derived_fields m VUndefined (VFun "seal") (VStr "other")).
  reflexivity.
Defined.

(** ** [decode]: the hash and the errors *)

Lemma decrypt_entry_run (h : collaborators) (bytes decryptEntryFn : value)
    (outer : value * option CID) :
  run h (Entry.decrypt_entry bytes decryptEntryFn) = Ok outer <->
  exists (encryptedEntry : block) (plain : value),
    h _ (Block_decode bytes) = Ok encryptedEntry /\
    run h (apply decryptEntryFn [value_of encryptedEntry]) = Ok plain /\
    outer = (plain, Some (cid encryptedEntry)).
Proof.
  unfold Entry.decrypt_entry.
  rewrite run_ok_bind. setoid_rewrite run_ok_bind. setoid_rewrite run_await. simpl run.
  split.
  - intros (ee & Hee & plain & Hp & [= <-]). exists ee, plain. auto.
  - intros (ee & plain & Hee & Hp & ->). exists ee. split; [exact Hee|].
    exists plain. split; [exact Hp|reflexivity].
Qed.

(** X8.  Whenever [decode] returns, the [hash] of the entry is the string
    form of the content identifier of the bytes that were given to
    [decode] (the wrapper, with entry decryption), whatever [hash] field
    the decoded object carried and whatever the decryption functions
    did. *)
Theorem decode_hash_addresses_input (h : collaborators)
    (bytes decryptEntryFn decryptPayloadFn d : value) :
  run h (Entry.decode bytes decryptEntryFn decryptPayloadFn) = Ok d ->
  exists (b : block) (hash : string),
    h _ (Block_decode bytes) = Ok b /\
    h _ (CID_toString (cid b)) = Ok hash /\
    prop d "hash" = VStr hash.
Proof.
  intros Hrun. apply decode_run in Hrun
    as (outer & decodedEntry & entry & hash & Ho & Hd & _ & Hh & ->).
  destruct (truthy decryptEntryFn).
  - apply decrypt_entry_run in Ho as (ee & plain & Hee & _ & ->).
    exists ee, hash. split; [exact Hee|]. split; [exact Hh|]. apply prop_insert_eq.
  - subst outer. exists decodedEntry, hash.
    split; [exact Hd|]. split; [exact Hh|]. apply prop_insert_eq.
Qed.

Lemma decode_hash_addresses_input_witness :
  exists (d : value) (b : block) (hash : string),
    run Sample.env
      (Entry.decode (VBytes [x07; x01; x01; x01; x04; x68; x61; x73; x68; x04; x01; x01; x78])
                    VUndefined VUndefined) = Ok d /\
    Sample.env _ (Block_decode
      (VBytes [x07; x01; x01; x01; x04; x68; x61; x73; x68; x04; x01; x01; x78])) = Ok b /\
    value_of b = VObj {[ "hash" := VStr "x" ]} /\
    Sample.env _ (CID_toString (cid b)) = Ok hash /\
    prop d "hash" = VStr hash.
Proof.
  eexists.
  edestruct (decode_hash_addresses_input Sample.env
               (VBytes [x07; x01; x01; x01; x04; x68; x61; x73; x68; x04; x01; x01; x78])
               VUndefined VUndefined)
    as (b & hash & Hb & Hh & Hd); [vm_compute; reflexivity|].
  exists b, hash. split; [vm_compute; reflexivity|]. split; [exact Hb|].
  split; [|split; [exact Hh|exact Hd]].
  vm_compute in Hb. injection Hb as <-. reflexivity.
Defined.



(** ** Entry encryption *)

Lemma encode_run_sealed (h : collaborators) (entry encryptEntryFn encryptPayloadFn : value)
    (encoded outer : block) (ciphertext : value) (hash : string) :
  h _ (Block_encode (VObj (Entry.persisted entry encryptPayloadFn))) = Ok encoded ->
  run h (apply encryptEntryFn [VBytes (bytes encoded)]) = Ok ciphertext ->
  h _ (Block_encode ciphertext) = Ok outer ->
  h _ (CID_toString (cid outer)) = Ok hash ->
  run h (Entry.encode entry encryptEntryFn encryptPayloadFn) =
  Ok (VObj {[ "hash" := VStr hash; "bytes" := VBytes (bytes outer) ]}).
Proof.
  intros Henc Hct Hout Hh. unfold Entry.encode.
  assert (Hfn : truthy encryptEntryFn = true)
    by (destruct encryptEntryFn; simpl in Hct; try discriminate; reflexivity).
  rewrite run_bind, run_await, Henc, Hfn, run_bind, run_bind, Hct, run_await, Hout.
  rewrite run_bind, run_await, Hh. reflexivity.
Qed.

(** X10.  Entry encryption round trip.  When the codec round-trips the
    persisted object and the ciphertext, and [decryptEntryFn] gives back
    the bytes that [encryptEntryFn] was given: [encode] with the
    [encryptEntryFn] returns the bytes and the hash of the wrapper (the
    encoded ciphertext), and [decode] of those bytes with the
    [decryptEntryFn] returns an entry that agrees with the original on
    [id], [next], [payload], [v], [clock], [refs], [key], [identity] and
    [sig] and has that same hash. *)
Theorem entry_encryption_roundtrip (h : collaborators) (m : gmap string value)
    (encryptEntryFn decryptEntryFn encryptPayloadFn decryptPayloadFn : value)
    (encoded : block) (ciphertext : value) :
  truthy encryptPayloadFn = false -> truthy decryptPayloadFn = false ->
  Contract.roundtrips h (VObj (Entry.persisted (VObj m) encryptPayloadFn)) ->
  h _ (Block_encode (VObj (Entry.persisted (VObj m) encryptPayloadFn))) = Ok encoded ->
  run h (apply encryptEntryFn [VBytes (bytes encoded)]) = Ok ciphertext ->
  run h (apply decryptEntryFn [ciphertext]) = Ok (VBytes (bytes encoded)) ->
  Contract.roundtrips h ciphertext ->
  Contract.prints h ->
  exists (outer : block) (hash : string) (d : value),
    h _ (Block_encode ciphertext) = Ok outer /\
    h _ (CID_toString (cid outer)) = Ok hash /\
    run h (Entry.encode (VObj m) encryptEntryFn encryptPayloadFn) =
      Ok (VObj {[ "hash" := VStr hash; "bytes" := VBytes (bytes outer) ]}) /\
    run h (Entry.decode (VBytes (bytes outer)) decryptEntryFn decryptPayloadFn) = Ok d /\
    prop d "hash" = VStr hash /\
    Forall (fun k => prop d k = prop (VObj m) k)
           (Entry.entry_fields ++ Entry.signature_fields).
Proof.
  intros HeP HdP (b & Hb & Hb') Henc Hct Hpt (outer & Hout & Hout') Hprints.
  rewrite Henc in Hb. injection Hb as <-.
  destruct (Hprints (cid outer)) as [hash Hhash].
  exists outer, hash,
    (VObj (<["hash" := VStr hash]> (Entry.persisted (VObj m) encryptPayloadFn))).
  split; [exact Hout|]. split; [exact Hhash|].
  split; [apply (encode_run_sealed h _ _ _ encoded outer ciphertext hash); assumption|].
  assert (HdE : truthy decryptEntryFn = true)
    by (destruct decryptEntryFn; simpl in Hpt; try discriminate; reflexivity).
  split; [|split].
  - apply decode_run.
    exists (VBytes (bytes encoded), Some (cid outer)),
           (Block (cid encoded) (bytes encoded)
                  (VObj (Entry.persisted (VObj m) encryptPayloadFn))),
           (VObj (Entry.persisted (VObj m) encryptPayloadFn)), hash.
    rewrite HdE, HdP.
    split; [|split; [exact Hb'|split; [reflexivity|split; [exact Hhash|reflexivity]]]].
    apply decrypt_entry_run. eexists _, _.
    split; [exact Hout'|]. split; [exact Hpt|reflexivity].
  - apply prop_insert_eq.
  - rewrite persisted_object, HeP.
    unfold Entry.entry_fields, Entry.signature_fields. simpl app.
    repeat (apply Forall_cons; split; [props; reflexivity|]). constructor.
Qed.

Lemma entry_encryption_roundtrip_witness :
  let m := <["key" := VStr "02ab"]> (<["sig" := VStr "3045"]>
             (Entry.unsigned (VStr "log1") (VStr "hello") (VArr []) (VArr []) (VNum 1))) in
  exists (hash : string) (bs : list byte) (d : value),
    run Sample.env (Entry.encode (VObj m) (VFun "seal") VUndefined) =
      Ok (VObj {[ "hash" := VStr hash; "bytes" := VBytes bs ]}) /\
    run Sample.env (Entry.decode (VBytes bs) (VFun "open") VUndefined) = Ok d /\
    prop d "hash" = VStr hash /\
    Forall (fun k => prop d k = prop (VObj m) k)
           (Entry.entry_fields ++ Entry.signature_fields).
Proof.
  intros m.
  edestruct (entry_encryption_roundtrip Sample.env m (VFun "seal") (VFun "open")
               VUndefined VUndefined)
    as (outer & hash & d & _ & _ & He & Hd & Hh & Hf).
  - reflexivity.
  - reflexivity.
  - eexists. split; vm_compute; reflexivity.
  - vm_compute. reflexivity.
  - vm_compute. reflexivity.
  - vm_compute. reflexivity.
  - eexists. split; vm_compute; reflexivity.
  - exact sample_prints.
  - exists hash, (bytes outer), d. auto.
Defined.

(** X11.  Both encryption layers.  For an entry with a ciphertext cache
    [_payload], [encode] with both functions persists the ciphertext as
    payload and wraps the encoded entry; when the codec round-trips the
    persisted object and the wrapper and the decryption functions undo
    their part, [decode] with both decryption functions returns an entry
    with the hash of the wrapper, the decrypted and decoded payload, the
    same [_payload], and the same [id], [next], [v], [clock], [refs],
    [key], [identity] and [sig]. *)
Theorem layered_encryption_roundtrip (h : collaborators) (m : gmap string value)
    (encryptEntryFn decryptEntryFn encryptPayloadFn decryptPayloadFn : value)
    (encoded : block) (ciphertext plain : value) (decodedPayload : block) :
  truthy encryptPayloadFn = true ->
  h _ (Block_encode (VObj (Entry.persisted (VObj m) encryptPayloadFn))) = Ok encoded ->
  h _ (Block_decode (VBytes (bytes encoded)))
  = Ok (Block (cid encoded) (bytes encoded)
              (VObj (Entry.persisted (VObj m) encryptPayloadFn))) ->
  run h (apply encryptEntryFn [VBytes (bytes encoded)]) = Ok ciphertext ->
  run h (apply decryptEntryFn [ciphertext]) = Ok (VBytes (bytes encoded)) ->
  Contract.roundtrips h ciphertext ->
  run h (apply decryptPayloadFn [prop (VObj m) "_payload"]) = Ok plain ->
  h _ (Block_decode plain) = Ok decodedPayload ->
  Contract.prints h ->
  exists (outer : block) (hash : string) (d : value),
    h _ (Block_encode ciphertext) = Ok outer /\
    h _ (CID_toString (cid outer)) = Ok hash /\
    run h (Entry.encode (VObj m) encryptEntryFn encryptPayloadFn) =
      Ok (VObj {[ "hash" := VStr hash; "bytes" := VBytes (bytes outer) ]}) /\
    run h (Entry.decode (VBytes (bytes outer)) decryptEntryFn decryptPayloadFn) = Ok d /\
    prop d "hash" = VStr hash /\
    prop d "payload" = value_of decodedPayload /\
    prop d "_payload" = prop (VObj m) "_payload" /\
    Forall (fun k => prop d k = prop (VObj m) k)
           (["id"; "next"; "v"; "clock"; "refs"] ++ Entry.signature_fields).
Proof.
  intros HeP Henc Hdec Hct Hpt (outer & Hout & Hout') Hplain Hdp Hprints.
  destruct (Hprints (cid outer)) as [hash Hhash].
  set (w := Entry.persisted (VObj m) encryptPayloadFn) in *.
  assert (Hw : prop (VObj w) "payload" = prop (VObj m) "_payload")
    by (subst w; rewrite persisted_object, HeP; props; reflexivity).
  exists outer, hash,
    (VObj (<["hash" := VStr hash]> (<["payload" := value_of decodedPayload]>
       (<["_payload" := prop (VObj m) "_payload"]> w)))).
  split; [exact Hout|]. split; [exact Hhash|].
  split; [apply (encode_run_sealed h _ _ _ encoded outer ciphertext hash); assumption|].
  assert (HdE : truthy decryptEntryFn = true)
    by (destruct decryptEntryFn; simpl in Hpt; try discriminate; reflexivity).
  assert (HdP : truthy decryptPayloadFn = true)
    by (destruct decryptPayloadFn; simpl in Hplain; try discriminate; reflexivity).
  split; [|split; [|split; [|split]]].
  - apply decode_run.
    exists (VBytes (bytes encoded), Some (cid outer)),
           (Block (cid encoded) (bytes encoded) (VObj w)),
           (VObj (<["payload" := value_of decodedPayload]>
                    (<["_payload" := prop (VObj m) "_payload"]> w))), hash.
    rewrite HdE, HdP.
    split; [|split; [exact Hdec|split; [|split; [exact Hhash|reflexivity]]]].
    + apply decrypt_entry_run. eexists _, _.
      split; [exact Hout'|]. split; [exact Hpt|reflexivity].
    + apply decrypt_payload_run. split; [reflexivity|].
      exists plain, decodedPayload. simpl value_of. rewrite Hw.
      split; [exact Hplain|]. split; [exact Hdp|reflexivity].
  - apply prop_insert_eq.
  - props. reflexivity.
  - props. reflexivity.
  - subst w. rewrite persisted_object, HeP.
    unfold Entry.signature_fields. simpl app.
    repeat (apply Forall_cons; split; [props; reflexivity|]). constructor.
Qed.

Lemma layered_encryption_roundtrip_witness :
  let m := <["_payload" := VBytes [x5e; x5b; x5f; x32; x3f; x36; x36; x35]]>
             (<["key" := VStr "02ab"]> (<["sig" := VStr "3045"]>
             (Entry.unsigned (VStr "log1") (VStr "hello") (VArr []) (VArr []) (VNum 1)))) in
  exists (hash : string) (bs : list byte) (d : value),
    run Sample.env (Entry.encode (VObj m) (VFun "seal") (VFun "seal")) =
      Ok (VObj {[ "hash" := VStr hash; "bytes" := VBytes bs ]}) /\
    run Sample.env (Entry.decode (VBytes bs) (VFun "open") (VFun "open")) = Ok d /\
    prop d "hash" = VStr hash /\
    prop d "payload" = VStr "hello".
Proof.
  intros m.
  edestruct (layered_encryption_roundtrip Sample.env m (VFun "seal") (VFun "open")
               (VFun "seal") (VFun "open"))
    as (outer & hash & d & _ & _ & He & Hd & Hh & Hp & _).
  - reflexivity.
  - vm_compute. reflexivity.
  - vm_compute. reflexivity.
  - vm_compute. reflexivity.
  - vm_compute. reflexivity.
  - eexists. split; vm_compute; reflexivity.
  - vm_compute. reflexivity.
  - vm_compute. reflexivity.
  - exact sample_prints.
  - exists hash, (bytes outer), d. split; [exact He|]. split; [exact Hd|].
    split; [exact Hh|]. rewrite Hp. reflexivity.
Defined.

(** ** Values that are no objects *)

(** The decimal numerals never start with a character that is no digit. *)
Lemma pretty_N_go_head (c : Ascii.ascii) (x : N) (s : string) :
  (forall y : N, pretty_N_char y <> c) ->
  (forall r, s <> String c r) -> forall r, pretty_N_go x s <> String c r.
Proof.
  intros Hc. revert s. induction (N.lt_wf_0 x) as [x _ IH]; intros s Hs r.
  assert (x = 0 \/ 0 < x)%N as [->|Hx] by lia.
  - rewrite pretty_N_go_0. apply Hs.
  - rewrite pretty_N_go_step by exact Hx. apply IH.
    + apply N.div_lt; [exact Hx|reflexivity].
    + intros r' [= E _]. exact (Hc _ E).
Qed.

Lemma pretty_nat_head (c : Ascii.ascii) (i : nat) (r : string) :
  (forall y : N, pretty_N_char y <> c) -> pretty i <> String c r.
Proof.
  intros Hc. unfold pretty, pretty_nat, pretty, pretty_N.
  destruct (decide (N.of_nat i = 0%N)).
  - intros [= E _]. exact (Hc 0%N E).
  - apply pretty_N_go_head; [exact Hc|]. discriminate.
Qed.

Lemma indexed_lookup_name {A} (f : A -> value) (l : list A) (c : Ascii.ascii) (r : string) :
  (forall y : N, pretty_N_char y <> c) -> indexed f l !! String c r = None.
Proof.
  intros Hc. unfold indexed. apply not_elem_of_list_to_map_1.
  intros Hin. apply list_elem_of_fmap in Hin as ([k v] & Hk & Hin).
  apply elem_of_lookup_imap in Hin as (i & x & [= -> ->] & _).
  simpl in Hk. symmetry in Hk. exact (pretty_nat_head c i r Hc Hk).
Qed.

(** Only an object has one of the fields of an entry among its own
    properties. *)
Lemma own_props_entry_field (v : value) (k : string) :
  (forall m, v <> VObj m) -> k ∈ Entry.entry_fields -> own_props v !! k = None.
Proof.
  intros Hv Hk.
  assert (Hidx : forall A (f : A -> value) (l : list A), indexed f l !! k = None).
  { intros A f l. apply list_elem_of_In in Hk. simpl in Hk.
    destruct Hk as [<-|[<-|[<-|[<-|[<-|[<-|[]]]]]]];
      apply indexed_lookup_name; intros y; unfold pretty_N_char;
      repeat case_match; discriminate. }
  destruct v; simpl; try apply lookup_empty; try apply Hidx.
  exfalso. exact (Hv _ eq_refl).
Qed.

Lemma spread_non_object_not_entry (v x : value) :
  (forall m, v <> VObj m) ->
  Entry.isEntry (VObj (<["hash" := x]> (own_props v))) = VBool false.
Proof.
  intros Hv. rewrite isEntry_object, prop_insert_ne by discriminate.
  unfold prop at 1. rewrite (own_props_entry_field v "id" Hv); [reflexivity|].
  apply list_elem_of_In. simpl. tauto.
Qed.

(** X12.  Bytes of an encrypted entry without a [decryptEntryFn].  What
    [encode] returns with an [encryptEntryFn] is the encoding of the
    ciphertext; [decode] of these bytes without a [decryptEntryFn] (and
    without payload decryption) throws nothing when the codec
    round-trips the ciphertext: it returns an object made of the own
    properties of the ciphertext and the hash that [encode] returned,
    and unless the ciphertext is itself a plain object, [isEntry] is
    false of it. *)
Theorem decode_sealed_without_decryptEntryFn (h : collaborators)
    (entry encryptEntryFn encryptPayloadFn decryptEntryFn decryptPayloadFn : value)
    (encoded : block) (ciphertext : value) :
  truthy decryptEntryFn = false -> truthy decryptPayloadFn = false ->
  h _ (Block_encode (VObj (Entry.persisted entry encryptPayloadFn))) = Ok encoded ->
  run h (apply encryptEntryFn [VBytes (bytes encoded)]) = Ok ciphertext ->
  Contract.roundtrips h ciphertext ->
  Contract.prints h ->
  exists (hash : string) (bs : list byte),
    run h (Entry.encode entry encryptEntryFn encryptPayloadFn) =
      Ok (VObj {[ "hash" := VStr hash; "bytes" := VBytes bs ]}) /\
    run h (Entry.decode (VBytes bs) decryptEntryFn decryptPayloadFn) =
      Ok (VObj (<["hash" := VStr hash]> (own_props ciphertext))) /\
    ((forall m, ciphertext <> VObj m) ->
     Entry.isEntry (VObj (<["hash" := VStr hash]> (own_props ciphertext))) = VBool false).
Proof.
  intros HdE HdP Henc Hct (outer & Hout & Hout') Hprints.
  destruct (Hprints (cid outer)) as [hash Hhash].
  exists hash, (bytes outer).
  split; [apply (encode_run_sealed h _ _ _ encoded outer ciphertext hash); assumption|].
  split; [|apply spread_non_object_not_entry].
  rewrite (decode_run_plain h _ _ _ _ hash HdE HdP Hout' Hhash). reflexivity.
Qed.

Lemma decode_sealed_without_decryptEntryFn_witness :
  let entry := VObj (<["key" := VStr "02ab"]> (<["sig" := VStr "3045"]>
             (Entry.unsigned (VStr "log1") (VStr "hello") (VArr []) (VArr []) (VNum 1)))) in
  exists (hash : string) (bs : list byte) (d : value),
    run Sample.env (Entry.encode entry (VFun "seal") VUndefined) =
      Ok (VObj {[ "hash" := VStr hash; "bytes" := VBytes bs ]}) /\
    run Sample.env (Entry.decode (VBytes bs) VUndefined VUndefined) = Ok d /\
    prop d "hash" = VStr hash /\
    Entry.isEntry d = VBool false.
Proof.
  intros entry.
  edestruct (decode_sealed_without_decryptEntryFn Sample.env entry (VFun "seal")
               VUndefined VUndefined VUndefined)
    as (hash & bs & Henc & Hdec & Hno).
  - reflexivity.
  - reflexivity.
  - vm_compute. reflexivity.
  - vm_compute. reflexivity.
  - eexists. split; vm_compute; reflexivity.
  - exact sample_prints.
  - exists hash, bs. eexists. split; [exact Henc|]. split; [exact Hdec|].
    split; [apply prop_insert_eq|]. apply Hno. discriminate.
Defined.

(** ** [decode] of bytes that hold no object *)

(** X13.  When the codec decodes the bytes to a value that is no object
    ([null], a boolean, a number, a string, a byte array, an array),
    [decode] without decryption functions still returns: an object with
    the own properties of that value and the hash, of which [isEntry] is
    false.  With a [decryptPayloadFn], on a decoded [null], boolean,
    number or string it throws "Could not decrypt payload". *)
Theorem decode_of_non_object (h : collaborators)
    (bytes decryptEntryFn decryptPayloadFn : value) (decoded : block) (hash : string) :
  truthy decryptEntryFn = false ->
  h _ (Block_decode bytes) = Ok decoded ->
  (forall m, value_of decoded <> VObj m) ->
  (truthy decryptPayloadFn = false ->
   h _ (CID_toString (cid decoded)) = Ok hash ->
   run h (Entry.decode bytes decryptEntryFn decryptPayloadFn)
   = Ok (VObj (<["hash" := VStr hash]> (own_props (value_of decoded)))) /\
   Entry.isEntry (VObj (<["hash" := VStr hash]> (own_props (value_of decoded))))
   = VBool false) /\
  (truthy decryptPayloadFn = true ->
   assignable (value_of decoded) = false ->
   run h (Entry.decode bytes decryptEntryFn decryptPayloadFn)
   = Err (Error "Could not decrypt payload")).
Proof.
  intros HdE Hd Hv. split.
  - intros HdP Hh. split; [|apply spread_non_object_not_entry, Hv].
    apply (decode_run_plain h _ _ _ _ hash HdE HdP Hd Hh).
  - intros HdP Ha. unfold Entry.decode. rewrite HdE, HdP.
    rewrite run_bind. change (run h (Ret ?x)) with (Ok x). cbv beta iota.
    rewrite run_bind, run_await. simpl fst. rewrite Hd.
    destruct (run h (Entry.decrypt_payload (value_of decoded) decryptPayloadFn))
      as [entry'|e] eqn:Hp.
    + apply decrypt_payload_run in Hp as [Ha' _]. congruence.
    + rewrite run_bind, (run_try_err h _ e _ Hp). reflexivity.
Qed.

Lemma decode_of_non_object_witness :
  run Sample.env (Entry.decode (VBytes [x04; x01; x02; x68; x69]) VUndefined VUndefined)
  = Ok (VObj (<["hash" := VStr "z1070803468"]> (own_props (VStr "hi")))) /\
  run Sample.env (Entry.decode (VBytes [x04; x01; x02; x68; x69]) VUndefined (VFun "open"))
  = Err (Error "Could not decrypt payload").
Proof.
  split.
  - eapply (decode_of_non_object Sample.env (VBytes [x04; x01; x02; x68; x69])
              VUndefined VUndefined (Block _ _ (VStr "hi"))).
    + reflexivity.
    + vm_compute. reflexivity.
    + discriminate.
    + reflexivity.
    + vm_compute. reflexivity.
  - eapply (decode_of_non_object Sample.env (VBytes [x04; x01; x02; x68; x69])
              VUndefined (VFun "open") (Block _ _ (VStr "hi")) "").
    + reflexivity.
    + vm_compute. reflexivity.
    + discriminate.
    + reflexivity.
    + reflexivity.
Defined.

(** ** Encoding again what [decode] returned *)

Lemma persisted_no_derived (entry encryptPayloadFn : value) :
  Entry.persisted entry encryptPayloadFn !! "hash" = None /\
  Entry.persisted entry encryptPayloadFn !! "_payload" = None /\
  (truthy encryptPayloadFn = true ->
   Entry.persisted entry encryptPayloadFn !! "payload"
   = Some (prop (VObj (own_props entry)) "_payload")).
Proof.
  unfold Entry.persisted. split; [apply lookup_delete_eq|]. split.
  - rewrite lookup_delete_ne, lookup_delete_eq by discriminate. reflexivity.
  - intros ->. rewrite !lookup_delete_ne, lookup_insert_eq by discriminate. reflexivity.
Qed.

Lemma persisted_of_decoded_plain (w : gmap string value) (x encryptPayloadFn : value) :
  truthy encryptPayloadFn = false ->
  w !! "hash" = None -> w !! "_payload" = None ->
  Entry.persisted (VObj (<["hash" := x]> w)) encryptPayloadFn = w.
Proof.
  intros Hfn Hh Hp. rewrite persisted_object, Hfn. map_lookups.
Qed.

Lemma persisted_of_decoded_sealed (w : gmap string value)
    (x plain ciphertext encryptPayloadFn : value) :
  truthy encryptPayloadFn = true ->
  w !! "hash" = None -> w !! "_payload" = None -> w !! "payload" = Some ciphertext ->
  Entry.persisted
    (VObj (<["hash" := x]> (<["payload" := plain]> (<["_payload" := ciphertext]> w))))
    encryptPayloadFn = w.
Proof.
  intros Hfn Hh Hp Hc. rewrite persisted_object, Hfn. props. map_lookups.
Qed.

(** X14.  Encoding again what [decode] returned.  When the codec decodes
    the bytes to the object that [encode] persists for an entry, the
    entry that [decode] returns (with payload decryption exactly when the
    entry was encoded with payload encryption) is persisted as the same
    object: [encode] of the decoded entry is the same program as
    [encode] of the original, so it yields the same hash and bytes. *)
Theorem encode_of_decoded (h : collaborators) (m : gmap string value)
    (bytes decryptEntryFn decryptPayloadFn encryptPayloadFn d : value)
    (c : CID) (bs : list byte) :
  truthy decryptEntryFn = false ->
  truthy decryptPayloadFn = truthy encryptPayloadFn ->
  h _ (Block_decode bytes)
  = Ok (Block c bs (VObj (Entry.persisted (VObj m) encryptPayloadFn))) ->
  run h (Entry.decode bytes decryptEntryFn decryptPayloadFn) = Ok d ->
  Entry.persisted d encryptPayloadFn = Entry.persisted (VObj m) encryptPayloadFn /\
  forall encryptEntryFn : value,
    Entry.encode d encryptEntryFn encryptPayloadFn
    = Entry.encode (VObj m) encryptEntryFn encryptPayloadFn.
Proof.
  intros HdE HdP Hb Hrun.
  assert (Hpers : Entry.persisted d encryptPayloadFn
                  = Entry.persisted (VObj m) encryptPayloadFn).
  { apply decode_run in Hrun
      as (outer & decodedEntry & entry & hash & Ho & Hd & He & _ & ->).
    rewrite HdE in Ho. subst outer. simpl fst in Hd. rewrite Hb in Hd.
    injection Hd as <-. simpl value_of in He.
    destruct (persisted_no_derived (VObj m) encryptPayloadFn) as (Hh & Hp & Hc).
    rewrite HdP in He. destruct (truthy encryptPayloadFn) eqn:Hfn.
    - apply decrypt_payload_run in He as (_ & plain & decoded & _ & _ & ->).
      simpl own_props.
      apply persisted_of_decoded_sealed; auto.
      unfold prop. rewrite (Hc eq_refl). reflexivity.
    - subst entry. simpl own_props. apply persisted_of_decoded_plain; auto. }
  split; [exact Hpers|]. intros fE. unfold Entry.encode. rewrite Hpers. reflexivity.
Qed.

Lemma encode_of_decoded_witness :
  let m := <["_payload" := VBytes [x5e; x5b; x5f; x32; x3f; x36; x36; x35]]>
             (<["key" := VStr "02ab"]> (<["sig" := VStr "3045"]>
             (Entry.unsigned (VStr "log1") (VStr "hello") (VArr []) (VArr []) (VNum 1)))) in
  let bs := default [] (Sample.ser (VObj (Entry.persisted (VObj m) (VFun "seal")))) in
  exists d : value,
    run Sample.env (Entry.decode (VBytes bs) VUndefined (VFun "open")) = Ok d /\
    prop d "payload" = VStr "hello" /\
    Entry.encode d VUndefined (VFun "seal") = Entry.encode (VObj m) VUndefined (VFun "seal").
Proof.
  intros m bs. eexists.
  split; [vm_compute; reflexivity|]. split; [vm_compute; reflexivity|].
  eapply (encode_of_decoded Sample.env m (VBytes bs) VUndefined (VFun "open") (VFun "seal")).
  - reflexivity.
  - reflexivity.
  - vm_compute. reflexivity.
  - vm_compute. reflexivity.
Defined.

(** ** [verify] after a round trip *)

Lemma verify_agree_or (identities : value) (m m' : gmap string value) :
  (forall k, k ∈ Entry.entry_fields ++ ["key"; "sig"] ->
             prop (VObj m) k = prop (VObj m') k) ->
  logical_or (prop (VObj m) "_payload") (prop (VObj m) "payload")
  = logical_or (prop (VObj m') "_payload") (prop (VObj m') "payload") ->
  Entry.verify identities (VObj m) = Entry.verify identities (VObj m').
Proof.
  intros H Hor. unfold Entry.verify.
  rewrite !isEntry_object, !snapshot_object, Hor.
  rewrite !(H "id"), !(H "next"), !(H "payload"), !(H "v"), !(H "clock"),
          !(H "refs"), !(H "key"), !(H "sig")
    by (apply list_elem_of_In; simpl; tauto).
  reflexivity.
Qed.

(** X15.  [verify] after a round trip without encryption functions.  The
    entry that [decode] returns has no [_payload], so the snapshot that
    [verify] checks for it carries the persisted payload.  For an entry
    without a truthy [_payload], [verify] of the decoded entry is the
    same program as [verify] of the original.  For an entry that has a
    ciphertext cache (one created with payload encryption) the original
    is checked on the ciphertext and the decoded entry on the
    plaintext. *)
Theorem verify_after_plain_roundtrip (h : collaborators) (identities : value)
    (m : gmap string value)
    (bytes decryptEntryFn decryptPayloadFn encryptPayloadFn d : value)
    (c : CID) (bs : list byte) :
  truthy decryptEntryFn = false -> truthy decryptPayloadFn = false ->
  truthy encryptPayloadFn = false ->
  h _ (Block_decode bytes)
  = Ok (Block c bs (VObj (Entry.persisted (VObj m) encryptPayloadFn))) ->
  run h (Entry.decode bytes decryptEntryFn decryptPayloadFn) = Ok d ->
  prop (Entry.snapshot d) "payload" = prop (VObj m) "payload" /\
  (truthy (prop (VObj m) "_payload") = false ->
   Entry.verify identities d = Entry.verify identities (VObj m)) /\
  (truthy (prop (VObj m) "_payload") = true ->
   prop (Entry.snapshot (VObj m)) "payload" = prop (VObj m) "_payload").
Proof.
  intros HdE HdP HeP Hb Hrun.
  apply decode_run in Hrun
    as (outer & decodedEntry & entry & hash & Ho & Hd & He & _ & ->).
  rewrite HdE in Ho. subst outer. simpl fst in Hd. rewrite Hb in Hd.
  injection Hd as <-. rewrite HdP in He. subst entry. simpl value_of. simpl own_props.
  rewrite persisted_object, HeP.
  split; [|split].
  - rewrite snapshot_object. props. reflexivity.
  - intros Hcache. apply verify_agree_or.
    + intros k Hk. apply list_elem_of_In in Hk. simpl in Hk.
      rewrite prop_insert_ne, !prop_delete_ne; [reflexivity| | |];
        intros <-; intuition discriminate.
    + props. unfold logical_or. rewrite Hcache. reflexivity.
  - intros Hcache. rewrite snapshot_object. props. unfold logical_or.
    rewrite Hcache. reflexivity.
Qed.

Lemma verify_after_plain_roundtrip_witness :
  let m := <["key" := VStr "02ab"]> (<["sig" := VStr "3045"]>
             (Entry.unsigned (VStr "log1") (VStr "hello") (VArr []) (VArr []) (VNum 1))) in
  let bs := default [] (Sample.ser (VObj (Entry.persisted (VObj m) VUndefined))) in
  exists d : value,
    run Sample.env (Entry.decode (VBytes bs) VUndefined VUndefined) = Ok d /\
    Entry.verify Sample.identities d = Entry.verify Sample.identities (VObj m).
Proof.
  intros m bs. eexists. split; [vm_compute; reflexivity|].
  eapply (verify_after_plain_roundtrip Sample.env Sample.identities m (VBytes bs)
            VUndefined VUndefined VUndefined).
  - reflexivity.
  - reflexivity.
  - reflexivity.
  - vm_compute. reflexivity.
  - vm_compute. reflexivity.
  - reflexivity.
Defined.

(** ** [verify] and the plaintext payload *)

(** X16.  When an entry has a truthy [_payload], [verify] does not cover
    its visible [payload]: replacing the payload by any other defined
    value leaves [verify] the same program, which checks the signature
    against the ciphertext only. *)
Theorem verify_skips_payload_under_cache (identities x : value) (m : gmap string value) :
  truthy (prop (VObj m) "_payload") = true ->
  defined (prop (VObj m) "payload") = true ->
  defined x = true ->
  Entry.verify identities (VObj (<["payload" := x]> m)) = Entry.verify identities (VObj m) /\
  prop (Entry.snapshot (VObj (<["payload" := x]> m))) "payload" = prop (VObj m) "_payload".
Proof.
  intros Hcache Hp Hx. unfold Entry.verify.
  rewrite !isEntry_object, !snapshot_object. props.
  unfold logical_or. rewrite Hcache, Hp, Hx. split; reflexivity.
Qed.

Lemma verify_skips_payload_under_cache_witness :
  let m := <["_payload" := VBytes [x5e; x5b]]> (<["key" := VStr "02ab"]>
             (<["sig" := VStr "3045"]>
             (Entry.unsigned (VStr "log1") (VStr "hello") (VArr []) (VArr []) (VNum 1)))) in
  Entry.verify Sample.identities (VObj (<["payload" := VStr "forged"]> m))
  = Entry.verify Sample.identities (VObj m).
Proof.
  intros m.
  refine (proj1 (verify_skips_payload_under_cache Sample.identities (VStr "forged") m _ _ _));
    reflexivity.
Defined.
